(** * EventHub front end: the API client session layer

    A shallow embedding of [APIClient] (frontend/js, the API client) and
    [API_CONFIG] (the API configuration) in Rocq, together with the part of
    the browser they talk to: [localStorage], [window.location],
    [setTimeout]/[clearTimeout], [AbortController] and [fetch].

    Asynchronous functions are computations over an explicit browser state
    ([World]); a promise either resolves, rejects with an error, or never
    settles.  The back end is a parameter: any function from the exchanges
    made so far and the outgoing request to what the network does with it. *)

From Stdlib Require Import ZArith NArith Ascii String List Lia.
From stdpp Require Import base option list gmap strings pretty.

Local Open Scope string_scope.
Local Open Scope Z_scope.
Local Set Warnings "-register-all".

(** ** JavaScript values

    The values that flow through the client are those produced by
    [JSON.parse], plus [undefined].  A number is a double; the client never
    computes with one, it only tests it for truthiness and converts it to
    text, so a number is kept as these two observations: whether it is
    truthy (other than [0], [-0] and [NaN]), and the text [String] gives
    for it. *)

Record number : Type := mkNumber {
  nonzero : bool;
  printed : string
}.

(** An integer small enough to be printed with all its digits. *)
Definition int (n : Z) : number := mkNumber (negb (n =? 0)) (pretty n).

Inductive value : Type :=
| JUndefined
| JNull
| JBool (b : bool)
| JNum (x : number)
| JStr (s : string)
| JArr (xs : list value)
| JObj (fields : list (string * value)).

(** Truthiness, as used by [!x], [x || y] and [if (x)]. *)
Definition truthy (v : value) : bool :=
  match v with
  | JUndefined | JNull => false
  | JBool b => b
  | JNum x => nonzero x
  | JStr s => negb (String.eqb s EmptyString)
  | JArr _ | JObj _ => true
  end.

(** [a || b] *)
Definition js_or (a b : value) : value := if truthy a then a else b.

Fixpoint join_with (sep : string) (parts : list string) : string :=
  match parts with
  | [] => EmptyString
  | [p] => p
  | p :: rest => p ++ sep ++ join_with sep rest
  end.

(** [String(v)], the conversion applied by template literals, by
    [new Error(v)] and by [localStorage.setItem]. *)
Fixpoint to_string (v : value) : string :=
  match v with
  | JUndefined => "undefined"
  | JNull => "null"
  | JBool true => "true"
  | JBool false => "false"
  | JNum x => printed x
  | JStr s => s
  | JArr xs =>
      join_with ","
        (map (fun x => match x with
                       | JUndefined | JNull => EmptyString
                       | _ => to_string x
                       end) xs)
  | JObj _ => "[object Object]"
  end.

(** Own property of a parsed object; a key that occurs twice in the JSON
    text keeps its last value. *)
Fixpoint field_of (k : string) (fields : list (string * value)) : option value :=
  match fields with
  | [] => None
  | (k', v) :: rest =>
      match field_of k rest with
      | Some later => Some later
      | None => if String.eqb k k' then Some v else None
      end
  end.

(** ** Errors *)

Record JsError : Type := mkError { name : string; message : string }.

(** [new Error(msg)] *)
Definition Error (msg : string) : JsError := mkError "Error" msg.

(** What [fetch] rejects with on a network failure. *)
Definition TypeError (msg : string) : JsError := mkError "TypeError" msg.

(** What [response.json()] rejects with on a body that is not JSON. *)
Definition SyntaxError : JsError :=
  mkError "SyntaxError" "Unexpected token in JSON".

(** What an aborted [fetch] rejects with. *)
Definition AbortError : JsError :=
  mkError "AbortError" "signal is aborted without reason".

(** ** The wire *)

Record Request : Type := mkRequest {
  url : string;
  req_method : option string;             (* [undefined] lets fetch use GET *)
  req_headers : gmap string string;
  req_body : option value                 (* the value whose JSON text is sent *)
}.

(** A response as the server sends it. *)
Record Response : Type := mkResponse {
  status : Z;
  parsed : option value                   (* [None]: the body does not decode as JSON *)
}.

(** [response.ok] *)
Definition ok (r : Response) : bool := (200 <=? status r) && (status r <=? 299).

(** What the network does with one [fetch]; latencies are in milliseconds
    from the moment the request is issued. *)
Inductive FetchOutcome : Type :=
| Resolves (latency : N) (r : Response)   (* the headers arrive, the body follows *)
| HeadersOnly (latency : N) (status : Z)  (* the headers arrive, the body never ends *)
| Fails (latency : N) (msg : string)      (* network failure *)
| Stalls.                                 (* nothing ever comes back *)

(** The response object [fetch] resolves with: the headers are there, the
    body is still to be read. *)
Record Received : Type := mkReceived {
  response_of :> Response;
  body_arrives : bool
}.

Definition Exchange : Type := Request * FetchOutcome.
Definition Server : Type := list Exchange -> Request -> FetchOutcome.

(** ** Browser state *)

Record World : Type := mkWorld {
  storage : gmap string string;           (* localStorage *)
  location : string;                      (* window.location.href *)
  timers : gmap nat N;                    (* pending setTimeout ids, with delay *)
  next_timer : nat;
  aborted : gset nat;                     (* controllers whose abort() has run *)
  log : list Exchange;                    (* fetches issued, latest first *)
  console : list JsError                  (* console.error *)
}.

Definition set_storage (f : gmap string string -> gmap string string) (w : World) : World :=
  mkWorld (f (storage w)) (location w) (timers w) (next_timer w) (aborted w) (log w) (console w).

Definition set_location (href : string) (w : World) : World :=
  mkWorld (storage w) href (timers w) (next_timer w) (aborted w) (log w) (console w).

Definition set_timers (f : gmap nat N -> gmap nat N) (w : World) : World :=
  mkWorld (storage w) (location w) (f (timers w)) (next_timer w) (aborted w) (log w) (console w).

(** ** Promises *)

Inductive Outcome (A : Type) : Type :=
| Resolved (a : A)
| Rejected (e : JsError)
| Hangs                                   (* the promise never settles *)
| OutOfFuel.                              (* the call depth bound was reached *)

Arguments Resolved {A} a.
Arguments Rejected {A} e.
Arguments Hangs {A}.
Arguments OutOfFuel {A}.

Definition Async (A : Type) : Type := World -> Outcome A * World.

Definition ret {A} (a : A) : Async A := fun w => (Resolved a, w).
(** A synchronous read of the browser state. *)
Definition read {A} (f : World -> A) : Async A := fun w => (Resolved (f w), w).
Definition throw {A} (e : JsError) : Async A := fun w => (Rejected e, w).
Definition out_of_fuel {A} : Async A := fun w => (OutOfFuel, w).

Definition bind {A B} (m : Async A) (k : A -> Async B) : Async B :=
  fun w =>
    match m w with
    | (Resolved a, w') => k a w'
    | (Rejected e, w') => (Rejected e, w')
    | (Hangs, w') => (Hangs, w')
    | (OutOfFuel, w') => (OutOfFuel, w')
    end.

(** [try { body } catch (error) { handler }] around awaited work. *)
Definition try_catch {A} (body : Async A) (handler : JsError -> Async A) : Async A :=
  fun w =>
    match body w with
    | (Rejected e, w') => handler e w'
    | settled => settled
    end.

Declare Scope async_scope.
Delimit Scope async_scope with async.
Notation "'await' x <- m ; k" := (bind m (fun x => k))
  (at level 10, x name, m at level 100, k at level 200) : async_scope.
Notation "'perform' m ; k" := (bind m (fun _ => k))
  (at level 10, m at level 100, k at level 200) : async_scope.
Local Open Scope async_scope.

(** [v.k] for the property names the client reads ([detail], [error],
    [access], [refresh]), none of which a prototype defines. *)
Definition get_prop (v : value) (k : string) : Async value :=
  match v with
  | JUndefined =>
      throw (TypeError ("Cannot read properties of undefined (reading '" ++ k ++ "')"))
  | JNull =>
      throw (TypeError ("Cannot read properties of null (reading '" ++ k ++ "')"))
  | JObj fields => ret (default JUndefined (field_of k fields))
  | _ => ret JUndefined
  end.

(** *** localStorage *)

Definition getItem (k : string) (w : World) : option string := storage w !! k.

Definition setItem (k : string) (v : value) : Async unit :=
  fun w => (Resolved tt, set_storage (insert k (to_string v)) w).

Definition removeItem (k : string) (w : World) : World :=
  set_storage (delete k) w.

(** [!s] for a [getItem] result: [null] and the empty string are falsy. *)
Definition present (s : option string) : bool :=
  match s with
  | Some t => negb (String.eqb t EmptyString)
  | None => false
  end.

(** *** console *)

Definition console_error (e : JsError) : Async unit :=
  fun w => (Resolved tt,
            mkWorld (storage w) (location w) (timers w) (next_timer w)
                    (aborted w) (log w) (e :: console w)).

(** *** Timers and abort controllers

    [request] creates one controller per timer, and the timer's callback
    aborts that controller; both are named by the timer id. *)

Definition setTimeout (delay : N) : Async nat :=
  fun w => (Resolved (next_timer w),
            mkWorld (storage w) (location w) (<[next_timer w := delay]> (timers w))
                    (S (next_timer w)) (aborted w) (log w) (console w)).

Definition clearTimeout (id : nat) : Async unit :=
  fun w => (Resolved tt, set_timers (delete id) w).

(** The timer [id] fires: it leaves the pending set and runs [abort()]. *)
Definition fire (id : nat) (w : World) : World :=
  mkWorld (storage w) (location w) (delete id (timers w)) (next_timer w)
          ({[id]} ∪ aborted w) (log w) (console w).

Definition record_exchange (x : Exchange) (w : World) : World :=
  mkWorld (storage w) (location w) (timers w) (next_timer w) (aborted w)
          (x :: log w) (console w).

(** ** API_CONFIG *)

Module API_CONFIG.

Definition BASE_URL : string := "http://localhost:8000/api".
Definition TIMEOUT : N := 30000.

Module ENDPOINTS.
Definition LOGIN := "/token/".
Definition REFRESH := "/token/refresh/".
Definition EVENTS := "/events/events/".
Definition SURVEYS := "/attendees/surveys/".
Definition HEALTH := "/health/".
End ENDPOINTS.

Definition getHeaders (includeAuth : bool) (w : World) : gmap string string :=
  let headers : gmap string string := {[ "Content-Type" := "application/json" ]} in
  if includeAuth then
    let token := getItem "access_token" w in
    match token with
    | Some t =>
        if present token
        then <["Authorization" := "Bearer " ++ t]> headers
        else headers
    | None => headers
    end
  else headers.

End API_CONFIG.

(** ** Request options *)

Record Options : Type := mkOptions {
  method : option string;
  body : option value;
  headers : gmap string string;           (* empty when the caller gives none *)
  auth : option bool;
  retry : option bool
}.

(** [{}] *)
Definition no_options : Options := mkOptions None None ∅ None None.

(** [flag !== false] *)
Definition not_false (flag : option bool) : bool :=
  match flag with
  | Some false => false
  | _ => true
  end.

(** [{ ...options, retry: false }] *)
Definition without_retry (options : Options) : Options :=
  mkOptions (method options) (body options) (headers options) (auth options) (Some false).

(** ** URLSearchParams

    [new URLSearchParams(params).toString()]: the form-urlencoded
    serialisation of the object's own properties, byte by byte. *)

Definition hex_digit (n : nat) : ascii :=
  nth n (list_ascii_of_string "0123456789ABCDEF") "0"%char.

Definition unreserved (c : ascii) : bool :=
  let n := nat_of_ascii c in
  ((48 <=? n) && (n <=? 57) || (65 <=? n) && (n <=? 90) || (97 <=? n) && (n <=? 122)
   || (n =? 42) || (n =? 45) || (n =? 46) || (n =? 95))%nat.

Fixpoint form_encode (s : string) : string :=
  match s with
  | EmptyString => EmptyString
  | String c rest =>
      if unreserved c then String c (form_encode rest)
      else if Ascii.eqb c " "%char then String "+"%char (form_encode rest)
      else String "%"%char
             (String (hex_digit (nat_of_ascii c / 16))
                (String (hex_digit (nat_of_ascii c mod 16)) (form_encode rest)))
  end.

(** *** The properties of an object, in enumeration order

    An object is given by its property definitions in source order.  Its
    own keys are enumerated with the array indices first, in ascending
    order, then the other keys in the order they were first defined; a key
    defined twice keeps its last value. *)

Fixpoint digits_value (s : string) (acc : N) : option N :=
  match s with
  | EmptyString => Some acc
  | String c rest =>
      let n := nat_of_ascii c in
      if ((48 <=? n) && (n <=? 57))%nat
      then digits_value rest (10 * acc + N.of_nat (n - 48))%N
      else None
  end.

(** The array index a key denotes: the canonical decimal text of an
    integer below 2^32 - 1. *)
Definition array_index (k : string) : option N :=
  match digits_value k 0%N with
  | Some n => if String.eqb (pretty n) k && (n <? 4294967295)%N then Some n else None
  | None => None
  end.

(** The keys in order of first definition. *)
Fixpoint first_keys (seen : list string) (props : list (string * value)) : list string :=
  match props with
  | [] => []
  | (k, _) :: rest =>
      if existsb (String.eqb k) seen then first_keys seen rest
      else k :: first_keys (k :: seen) rest
  end.

Fixpoint insert_index (n : N) (k : string) (sorted : list (N * string)) : list (N * string) :=
  match sorted with
  | [] => [(n, k)]
  | (m, j) :: rest =>
      if (n <=? m)%N then (n, k) :: sorted else (m, j) :: insert_index n k rest
  end.

Definition own_keys (props : list (string * value)) : list string :=
  let keys := first_keys [] props in
  let indices :=
    fold_right (fun k sorted =>
                  match array_index k with
                  | Some n => insert_index n k sorted
                  | None => sorted
                  end) [] keys in
  (map snd indices
   ++ List.filter (fun k => match array_index k with Some _ => false | None => true end) keys)%list.

Definition own_properties (props : list (string * value)) : list (string * value) :=
  map (fun k => (k, default JUndefined (field_of k props))) (own_keys props).

Definition URLSearchParams (params : list (string * value)) : string :=
  join_with "&"
    (map (fun kv => form_encode (fst kv) ++ "=" ++ form_encode (to_string (snd kv)))
         (own_properties params)).

(** ** APIClient *)

Record APIClient : Type := mkClient { baseUrl : string; timeout : N }.

(** [new APIClient()] *)
Definition new_APIClient : APIClient :=
  mkClient API_CONFIG.BASE_URL API_CONFIG.TIMEOUT.

(** How the [try] block of [request] ends when nothing is thrown: with
    [return this.request(...)], whose promise is handed back without being
    awaited (so the surrounding [catch] never sees its rejection), or with
    [return data]. *)
Inductive Completion : Type :=
| Reissue
| Data (data : value).

Section Client.

Variable server : Server.
Variable this : APIClient.

(** [fetch(url, { ...config, signal })].  The signal belongs to the
    controller that timer [signal] aborts: if that timer is still pending
    and its delay runs out before the network answers, the timer fires and
    the operation is cancelled.  A response arriving on the very
    millisecond of the deadline loses to the timer.  The promise resolves
    when the headers are in; the body is read later, by [json]. *)
Definition fetch (req : Request) (signal : nat) : Async Received :=
  fun w =>
    let outcome := server (log w) req in
    let w1 := record_exchange (req, outcome) w in
    let in_time (latency : N) :=
      match timers w !! signal with
      | Some delay => (latency <? delay)%N
      | None => true
      end in
    match outcome with
    | Resolves latency r =>
        if in_time latency then (Resolved (mkReceived r true), w1)
        else (Rejected AbortError, fire signal w1)
    | HeadersOnly latency status =>
        if in_time latency then (Resolved (mkReceived (mkResponse status None) false), w1)
        else (Rejected AbortError, fire signal w1)
    | Fails latency msg =>
        if in_time latency then (Rejected (TypeError msg), w1)
        else (Rejected AbortError, fire signal w1)
    | Stalls =>
        match timers w !! signal with
        | Some _ => (Rejected AbortError, fire signal w1)
        | None => (Hangs, w1)
        end
    end.

(** [response.json()]: waits for the body and decodes it.  No timer is
    consulted: the one [request] armed is cleared before the body is read,
    so a body that never ends leaves the promise pending. *)
Definition json (response : Received) : Async value :=
  fun w =>
    if body_arrives response then
      match parsed response with
      | Some data => (Resolved data, w)
      | None => (Rejected SyntaxError, w)
      end
    else (Hangs, w).

(** [response.json().catch(() => ({}))] *)
Definition read_json (response : Received) : Async value :=
  try_catch (json response) (fun _ => ret (JObj [])).

(** What [response.json().catch(() => ({}))] resolves with when the body
    of [response] arrives. *)
Definition json_or_empty (response : Response) : value :=
  default (JObj []) (parsed response).

(** A parameter with the default [{}]: [undefined] stands for an argument
    left out. *)
Definition or_empty_object (data : value) : value :=
  match data with
  | JUndefined => JObj []
  | _ => data
  end.

Definition logout : Async unit :=
  fun w =>
    (Resolved tt,
     set_location "/pages/login.html"
       (removeItem "refresh_token" (removeItem "access_token" w))).

Definition isAuthenticated (w : World) : bool :=
  present (getItem "access_token" w).

(** [post(endpoint, data = {})], over whatever [request] it is given. *)
Definition post_with (request : string -> Options -> Async value)
    (endpoint : string) (data : value) : Async value :=
  request endpoint (mkOptions (Some "POST") (Some (or_empty_object data)) ∅ None None).

(** [refreshToken], over whatever [post] it is given. *)
Definition refreshToken_with (post : string -> value -> Async value) : Async bool :=
  try_catch
    (await refresh <- read (getItem "refresh_token");
     match refresh with
     | Some token =>
         if present refresh then
           await data <- post API_CONFIG.ENDPOINTS.REFRESH (JObj [("refresh", JStr token)]);
           await access <- get_prop data "access";
           if truthy access then
             perform setItem "access_token" access;
             ret true
           else ret false
         else ret false
     | None => ret false
     end)
    (fun error => perform logout; ret false).

(** The outgoing request that [request] builds from its arguments. *)
Definition build_config (endpoint : string) (options : Options) (w : World) : Request :=
  mkRequest (baseUrl this ++ endpoint) (method options)
            (headers options ∪ API_CONFIG.getHeaders (not_false (auth options)) w)
            (body options).

(** [request].  The function calls itself, directly when it re-issues the
    request and through [refreshToken] and [post] when it asks for a
    refresh; [fuel] bounds the depth of these nested calls.  [refreshed] is
    false when the condition of the [if] around the refresh does not hold. *)
Fixpoint request (fuel : nat) (endpoint : string) (options : Options) : Async value :=
  match fuel with
  | O => out_of_fuel
  | S fuel' =>
      await config <- read (build_config endpoint options);
      await completion <-
        try_catch
          (await timeoutId <- setTimeout (timeout this);
           await response <- fetch config timeoutId;
           perform clearTimeout timeoutId;
           await refreshed <-
             (if (status response =? 401) && not_false (retry options)
              then refreshToken_with (post_with (request fuel'))
              else ret false);
           if refreshed then ret Reissue
           else
             await data <- read_json response;
             if negb (ok response) then
               await detail <- get_prop data "detail";
               await reason <-
                 (if truthy detail then ret detail
                  else
                    await error <- get_prop data "error";
                    ret (js_or error (JStr ("Error " ++ pretty (status response)))));
               throw (Error (to_string reason))
             else ret (Data data))
          (fun error =>
             perform console_error error;
             if String.eqb (name error) "AbortError"
             then throw (Error "La petición tardó demasiado tiempo")
             else throw error);
      match completion with
      | Reissue => request fuel' endpoint (without_retry options)
      | Data data => ret data
      end
  end.

Definition get (fuel : nat) (endpoint : string) (params : list (string * value)) : Async value :=
  let queryString := URLSearchParams params in
  let url := if String.eqb queryString EmptyString then endpoint else endpoint ++ "?" ++ queryString in
  request fuel url (mkOptions (Some "GET") None ∅ None None).

Definition post (fuel : nat) : string -> value -> Async value :=
  post_with (request fuel).

Definition put (fuel : nat) (endpoint : string) (data : value) : Async value :=
  request fuel endpoint (mkOptions (Some "PUT") (Some (or_empty_object data)) ∅ None None).



Definition refreshToken (fuel : nat) : Async bool :=
  refreshToken_with (post fuel).

(** *** Authentication *)

Definition login (fuel : nat) (username password : value) : Async value :=
  try_catch
    (await data <- post fuel API_CONFIG.ENDPOINTS.LOGIN
                     (JObj [("username", username); ("password", password)]);
     await access <- get_prop data "access";
     if truthy access then
       perform setItem "access_token" access;
       await refresh <- get_prop data "refresh";
       perform setItem "refresh_token" refresh;
       ret (JObj [("success", JBool true); ("data", data)])
     else ret (JObj [("success", JBool false); ("error", JStr "No se recibió token")]))
    (fun error => ret (JObj [("success", JBool false); ("error", JStr (message error))])).



(** *** Events *)

Definition getEvents (fuel : nat) (params : list (string * value)) : Async value :=
  get fuel API_CONFIG.ENDPOINTS.EVENTS params.






(** *** Categories and venues *)



(** *** Tickets *)





(** *** Attendees *)



(** *** Sponsors *)




(** *** Health check *)

Definition healthCheck (fuel : nat) : Async value :=
  try_catch
    (get fuel API_CONFIG.ENDPOINTS.HEALTH [])
    (fun error => ret (JObj [("status", JStr "error"); ("message", JStr (message error))])).

End Client.

(** The global instance, [const api = new APIClient()]. *)
Definition api : APIClient := new_APIClient.

(** ** Feature callers that hand [request]'s promise straight back *)



(** ** Back ends and sessions used in examples *)

Definition fresh_world (store : gmap string string) : World :=
  mkWorld store "/index.html" ∅ 0 ∅ [] [].

Definition session : gmap string string :=
  <["access_token" := "A1"]> (<["refresh_token" := "R1"]> (<["user" := "{}"]> ∅)).

Definition is_refresh (req : Request) : bool :=
  String.eqb (url req) (API_CONFIG.BASE_URL ++ API_CONFIG.ENDPOINTS.REFRESH).

(** Answers 401 to every request, the refresh endpoint included (what a
    token service does with an expired refresh token). *)
Definition always_401 : Server :=
  fun _ _ =>
    Resolves 20 (mkResponse 401 (Some (JObj [("detail", JStr "Token is invalid or expired")]))).

(** Rejects the access token on every request but renews it on the
    refresh endpoint. *)
Definition stale_access : Server :=
  fun _ req =>
    if is_refresh req
    then Resolves 20 (mkResponse 200 (Some (JObj [("access", JStr "A2")])))
    else Resolves 20 (mkResponse 401 (Some (JObj [("detail", JStr "Token expired")]))).

(** Answers 401 until the access token has been renewed, 200 afterwards. *)
Definition expired_once : Server :=
  fun history req =>
    if is_refresh req
    then Resolves 20 (mkResponse 200 (Some (JObj [("access", JStr "A2")])))
    else if existsb (fun x => is_refresh (fst x)) history
         then Resolves 20 (mkResponse 200 (Some (JObj [("count", JNum (int 0))])))
         else Resolves 20 (mkResponse 401 (Some (JObj [("detail", JStr "Token expired")]))).

(** The network is down. *)
Definition offline : Server := fun _ _ => Fails 5 "Failed to fetch".


(** Sends the headers of a 200 after 20 ms, and then never the body. *)
Definition stalled_body : Server := fun _ _ => HeadersOnly 20 200.

(** Answers 200 with a body that is not JSON. *)
Definition garbled : Server := fun _ _ => Resolves 20 (mkResponse 200 None).

(** Answers 404 with a [detail]. *)
Definition not_found : Server :=
  fun _ _ => Resolves 20 (mkResponse 404 (Some (JObj [("detail", JStr "Not found.")]))).


(** Issues a token pair to whoever asks. *)
Definition token_service : Server :=
  fun _ _ =>
    Resolves 20 (mkResponse 200 (Some (JObj [("access", JStr "A1"); ("refresh", JStr "R1")]))).

Definition alice : value := JStr "alice".
Definition secret : value := JStr "secret".

(** ** Vocabulary of the statements *)


(** The network's answer to a request makes [request] fail without a
    retry: a network failure, no answer within [delay], or a timely
    response whose status is neither a success nor 401. *)
Definition refused (delay : N) (o : FetchOutcome) : bool :=
  match o with
  | Resolves latency r =>
      if (latency <? delay)%N then negb (ok r) && negb (status r =? 401) else true
  | HeadersOnly latency _ => negb (latency <? delay)%N
  | Fails _ _ | Stalls => true
  end.

(** The member [k] of a decoded body, [undefined] when there is none. *)
Definition member (k : string) (data : value) : value :=
  match data with
  | JObj fields => default JUndefined (field_of k fields)
  | _ => JUndefined
  end.

Definition nullish (v : value) : bool :=
  match v with
  | JUndefined | JNull => true
  | _ => false
  end.

(** [{ method: 'POST', body: JSON.stringify(data) }] *)
Definition post_options (data : value) : Options :=
  mkOptions (Some "POST") (Some data) ∅ None None.


(** [m] never drops what is already on the wire log. *)
Definition keeps {A} (base : list Exchange) (m : Async A) : Prop :=
  forall w, base `suffix_of` log w -> base `suffix_of` log (snd (m w)).

(** The [Authorization] header of each request on the wire, latest first. *)
Definition authorizations (w : World) : list (option string) :=
  map (fun x => req_headers (fst x) !! "Authorization") (log w).

(** The URL of each request on the wire, latest first. *)
Definition urls (w : World) : list string :=
  map (fun x => url (fst x)) (log w).

(** The URLs fetched, latest first, by a call that keeps asking for a
    refresh down to depth [n]. *)
Definition refresh_chain (n : nat) (endpoint : string) : list string :=
  match n with
  | O => []
  | S k => repeat (baseUrl api ++ API_CONFIG.ENDPOINTS.REFRESH) k ++ [baseUrl api ++ endpoint]
  end.


(** ** Vocabulary of the further statements *)

(** A response with status 401 that arrives before [delay] has passed. *)
Definition timely_401 (delay : N) (o : FetchOutcome) : bool :=
  match o with
  | Resolves latency r => (latency <? delay)%N && (status r =? 401)
  | HeadersOnly latency status => (latency <? delay)%N && (status =? 401)
  | Fails _ _ | Stalls => false
  end.

(** The headers arrive before [delay] has passed and the body never ends. *)
Definition endless_body (delay : N) (o : FetchOutcome) : bool :=
  match o with
  | HeadersOnly latency _ => (latency <? delay)%N
  | Resolves _ _ | Fails _ _ | Stalls => false
  end.

(** The promise has settled: it resolved or it rejected. *)
Definition settled {A} (o : Outcome A) : bool :=
  match o with
  | Resolved _ | Rejected _ => true
  | Hangs | OutOfFuel => false
  end.


(** [m] keeps the property [I] of the browser state. *)
Definition preserves {A} (I : World -> Prop) (m : Async A) : Prop :=
  forall w, I w -> I (snd (m w)).

(** Every request on the wire goes to a URL under [base]. *)
Definition same_origin (base : string) (w : World) : Prop :=
  Forall (fun x : Exchange => String.prefix base (url (fst x)) = true) (log w).

(** The body of [request], over the two calls it makes to itself: the
    refresh (through [refreshToken] and [post]) and the re-issue. *)
Definition request_body (server : Server) (this : APIClient)
    (refresh : Async bool) (reissue : Async value)
    (endpoint : string) (options : Options) : Async value :=
  await config <- read (build_config this endpoint options);
  await completion <-
    try_catch
      (await timeoutId <- setTimeout (timeout this);
       await response <- fetch server config timeoutId;
       perform clearTimeout timeoutId;
       await refreshed <-
         (if (status response =? 401) && not_false (retry options)
          then refresh
          else ret false);
       if refreshed then ret Reissue
       else
         await data <- read_json response;
         if negb (ok response) then
           await detail <- get_prop data "detail";
           await reason <-
             (if truthy detail then ret detail
              else
                await error <- get_prop data "error";
                ret (js_or error (JStr ("Error " ++ pretty (status response)))));
           throw (Error (to_string reason))
         else ret (Data data))
      (fun error =>
         perform console_error error;
         if String.eqb (name error) "AbortError"
         then throw (Error "La petición tardó demasiado tiempo")
         else throw error);
  match completion with
  | Reissue => reissue
  | Data data => ret data
  end.

(** ** The registration form (auth.js) *)

(** [s.length]: the number of UTF-16 code units of the text whose UTF-8
    bytes are [s].  A continuation byte adds nothing, the lead byte of a
    four-byte sequence stands for a surrogate pair. *)
Definition code_units (c : ascii) : nat :=
  let n := nat_of_ascii c in
  if (n <? 128)%nat then 1%nat
  else if (n <? 192)%nat then 0%nat
  else if (n <? 240)%nat then 1%nat
  else 2%nat.

Fixpoint js_length (s : string) : nat :=
  match s with
  | EmptyString => 0%nat
  | String c rest => (code_units c + js_length rest)%nat
  end.

(** [!s] for a string. *)
Definition blank (s : string) : bool := String.eqb s EmptyString.

(** One call of [showNotification(message, type)] from the forms; the
    function the login and registration pages load is defined elsewhere. *)
Record Notice : Type := mkNotice { notice_message : string; notice_type : string }.

Record RegisterData : Type := mkRegisterData {
  username : string;
  email : string;
  password : string;
  first_name : string;
  last_name : string
}.

(** [validateRegisterForm], over the email check it calls (defined
    elsewhere) and the notifications shown so far. *)
Definition validateRegisterForm (isValidEmail : string -> bool)
    (data : RegisterData) (confirmPassword : string) (termsAccepted : bool)
    (shown : list Notice) : bool * list Notice :=
  if blank (username data) || blank (email data) || blank (password data)
     || blank (first_name data) || blank (last_name data)
  then (false, (shown ++ [mkNotice "Por favor completa todos los campos" "error"])%list)
  else if negb (isValidEmail (email data))
  then (false, (shown ++ [mkNotice "Por favor ingresa un email válido" "error"])%list)
  else if (js_length (username data) <? 3)%nat
  then (false, (shown ++ [mkNotice "El usuario debe tener al menos 3 caracteres" "error"])%list)
  else if (js_length (password data) <? 8)%nat
  then (false, (shown ++ [mkNotice "La contraseña debe tener al menos 8 caracteres" "error"])%list)
  else if negb (String.eqb (password data) confirmPassword)
  then (false, (shown ++ [mkNotice "Las contraseñas no coinciden" "error"])%list)
  else if negb termsAccepted
  then (false, (shown ++ [mkNotice "Debes aceptar los términos y condiciones" "error"])%list)
  else (true, shown).

(** [regex.test(s)] for a one-character class. *)
Definition test (class : ascii -> bool) (s : string) : bool :=
  existsb class (list_ascii_of_string s).

(** [[a-z]], [[A-Z]], [\d] and [[^a-zA-Z\d]]. *)
Definition lower_case (c : ascii) : bool :=
  ((97 <=? nat_of_ascii c) && (nat_of_ascii c <=? 122))%nat.
Definition upper_case (c : ascii) : bool :=
  ((65 <=? nat_of_ascii c) && (nat_of_ascii c <=? 90))%nat.
Definition digit (c : ascii) : bool :=
  ((48 <=? nat_of_ascii c) && (nat_of_ascii c <=? 57))%nat.
Definition symbol (c : ascii) : bool :=
  negb (lower_case c || upper_case c || digit c).

(** The [strength] counter of [updatePasswordStrength]. *)
Definition password_strength (password : string) : nat :=
  let strength := 0%nat in
  let strength := if (8 <=? js_length password)%nat then S strength else strength in
  let strength := if (12 <=? js_length password)%nat then S strength else strength in
  let strength :=
    if test lower_case password && test upper_case password then S strength else strength in
  let strength := if test digit password then S strength else strength in
  let strength := if test symbol password then S strength else strength in
  strength.

(** [updatePasswordStrength]: the class name the indicator ends up with,
    given the password typed and the indicator's class name so far
    ([None] when the page has no indicator). *)
Definition updatePasswordStrength (password : string) (strengthIndicator : option string)
    : option string :=
  match strengthIndicator with
  | None => None
  | Some _ =>
      let strength := password_strength password in
      Some ("password-strength" ++ " " ++
            (if (strength <=? 2)%nat then "weak"
             else if (strength <=? 4)%nat then "medium"
             else "strong"))
  end.

(** ** The catalogue page state and its pagination *)

Record Filters : Type := mkFilters {
  search : string;
  category : value;
  filter_status : string;
  ordering : string
}.

Record State : Type := mkState {
  events : list value;
  categories : list value;
  currentPage : Z;
  totalPages : Z;
  filters : Filters;
  selectedEvent : value
}.

(** What [renderPagination] writes into the container, one item per
    fragment of HTML: the previous and next buttons with the page their
    [onclick] asks for and whether they are [disabled], a page button with
    its number and whether it has the [active] class, the ellipsis. *)
Inductive Control : Type :=
| PrevButton (target : Z) (disabled : bool)
| PageButton (page : Z) (active : bool)
| Dots
| NextButton (target : Z) (disabled : bool).

(** The body of the [for] loop, for page [i]. *)
Definition page_controls (st : State) (i : Z) : list Control :=
  if (i =? 1) || (i =? totalPages st)
     || ((currentPage st - 1 <=? i) && (i <=? currentPage st + 1))
  then [PageButton i (i =? currentPage st)]
  else if (i =? currentPage st - 2) || (i =? currentPage st + 2)
  then [Dots]
  else [].

(** [renderPagination], on a page that has the pagination container:
    what ends up in the container ([[]] for the empty string). *)
Definition renderPagination (st : State) : list Control :=
  if totalPages st <=? 1 then []
  else
    ([PrevButton (currentPage st - 1) (currentPage st =? 1)]
     ++ flat_map (page_controls st) (seqZ 1 (totalPages st))
     ++ [NextButton (currentPage st + 1) (currentPage st =? totalPages st)])%list.

(** What [changePage] sets off after updating the state. *)
Inductive Effect : Type :=
| LoadEvents
| ScrollToTop.

(** [changePage]: the new state and, in order, what it sets off (the
    call of [loadEvents], which it does not await, and the scroll). *)
Definition changePage (page : Z) (st : State) : State * list Effect :=
  if (page <? 1) || (page >? totalPages st) then (st, [])
  else (mkState (events st) (categories st) page (totalPages st) (filters st) (selectedEvent st),
        [LoadEvents; ScrollToTop]).

(** The page numbers of the page buttons among [controls], in order. *)
Definition page_buttons (controls : list Control) : list Z :=
  omap (fun c => match c with PageButton p _ => Some p | _ => None end) controls.

(** The page a control asks [changePage] for when clicked, if it can be
    clicked. *)
Definition click_target (c : Control) : option Z :=
  match c with
  | PrevButton target disabled | NextButton target disabled =>
      if disabled then None else Some target
  | PageButton page _ => Some page
  | Dots => None
  end.

(** The number of ellipses among [controls]. *)
Definition ellipses (controls : list Control) : nat :=
  length (List.filter (fun c => match c with Dots => true | _ => false end) controls).

(** Page [i] gets a button. *)
Definition has_button (st : State) (i : Z) : bool :=
  (i =? 1) || (i =? totalPages st)
  || ((currentPage st - 1 <=? i) && (i <=? currentPage st + 1)).

(** Page [i] gets an ellipsis. *)
Definition has_dots (st : State) (i : Z) : bool :=
  negb (has_button st i) && ((i =? currentPage st - 2) || (i =? currentPage st + 2)).

(** ** The catalogue page and the back end (main script) *)

(** One call of [showNotification(message, type, duration)]: the
    notification element appended to the document, to be removed after
    [duration] milliseconds. *)
Record Toast : Type := mkToast {
  toast_message : string;
  toast_type : string;
  toast_duration : N
}.

(** The page: the browser state of the API client, the notifications on
    screen and the lines of [console.log]. *)
Record Screen : Type := mkScreen {
  browser : World;
  notifications : list Toast;
  console_lines : list string
}.

Definition UI (A : Type) : Type := Screen -> Outcome A * Screen.

Definition ui_ret {A} (a : A) : UI A := fun s => (Resolved a, s).
Definition ui_throw {A} (e : JsError) : UI A := fun s => (Rejected e, s).

Definition ui_bind {A B} (m : UI A) (k : A -> UI B) : UI B :=
  fun s =>
    match m s with
    | (Resolved a, s') => k a s'
    | (Rejected e, s') => (Rejected e, s')
    | (Hangs, s') => (Hangs, s')
    | (OutOfFuel, s') => (OutOfFuel, s')
    end.

Definition ui_try_catch {A} (body : UI A) (handler : JsError -> UI A) : UI A :=
  fun s =>
    match body s with
    | (Rejected e, s') => handler e s'
    | other => other
    end.

(** A call into the API client (or the browser) from the page. *)
Definition lift {A} (m : Async A) : UI A :=
  fun s =>
    let '(o, w) := m (browser s) in
    (o, mkScreen w (notifications s) (console_lines s)).

Declare Scope ui_scope.
Delimit Scope ui_scope with ui.
Notation "'await' x <- m ; k" := (ui_bind m (fun x => k))
  (at level 10, x name, m at level 100, k at level 200) : ui_scope.
Notation "'perform' m ; k" := (ui_bind m (fun _ => k))
  (at level 10, m at level 100, k at level 200) : ui_scope.

(** [showNotification(message, type = 'info', duration = 5000)] *)
Definition showNotification (message type : string) (duration : N) : UI unit :=
  fun s =>
    (Resolved tt,
     mkScreen (browser s) (notifications s ++ [mkToast message type duration])
              (console_lines s)).

Definition console_log (line : string) : UI unit :=
  fun s =>
    (Resolved tt, mkScreen (browser s) (notifications s) (console_lines s ++ [line])).

(** [v === 'text'] *)
Definition is_text (v : value) (text : string) : bool :=
  match v with
  | JStr s => String.eqb s text
  | _ => false
  end.

Definition checkBackendConnection (server : Server) (fuel : nat) : UI unit :=
  (ui_try_catch
     (await health <- lift (healthCheck server api fuel);
      await status <- lift (get_prop health "status");
      if is_text status "healthy" then
        perform console_log "✅ Conexión con backend establecida";
        showNotification "Conexión establecida con el servidor" "success" 5000
      else ui_throw (Error "Backend no responde correctamente"))
     (fun error =>
        perform lift (console_error error);
        showNotification
          ("No se puede conectar con el servidor. Verifica que el backend esté corriendo en "
           ++ API_CONFIG.BASE_URL)
          "error" 10000))%ui.

(** ** Further back ends and pages used in examples *)

(** Issues an access token without a refresh token. *)
Definition access_only : Server :=
  fun _ _ => Resolves 20 (mkResponse 200 (Some (JObj [("access", JStr "A1")]))).

(** Reports a healthy back end. *)
Definition healthy : Server :=
  fun _ _ => Resolves 20 (mkResponse 200 (Some (JObj [("status", JStr "healthy")]))).

(** The catalogue on page [page] of [pages]. *)
Definition catalogue (page pages : Z) : State :=
  mkState [] [] page pages (mkFilters EmptyString (JStr EmptyString) EmptyString "-start_date")
          JNull.

Definition blank_screen : Screen := mkScreen (fresh_world session) [] [].

Definition sample_form : RegisterData :=
  mkRegisterData "alice" "alice@example.org" "Secret-123" "Alice" "Liddell".

(** * Properties *)

Ltac unfold_async :=
  unfold bind, read, ret, throw, try_catch, setTimeout, fetch, clearTimeout,
    console_error, get_prop, setItem, logout, out_of_fuel.

Ltac enter_request :=
  cbn [request]; unfold_async; cbn [log timers timeout api new_APIClient];
  unfold API_CONFIG.TIMEOUT; rewrite lookup_insert_eq.


Ltac in_time H :=
  match type of H with
  | (?a < ?b)%N => let E := fresh "E" in
      assert (E : (a <? b)%N = true) by (apply N.ltb_lt; exact H); rewrite ?E
  end.

(** A body that arrives is decoded, or replaced by the empty object. *)
Lemma read_json_complete r w :
  read_json (mkReceived r true) w = (Resolved (json_or_empty r), w).
Proof. unfold read_json, try_catch, json, json_or_empty. cbn. destruct (parsed r); reflexivity. Qed.

(** A body that never ends leaves the promise pending. *)
Lemma read_json_endless r w : read_json (mkReceived r false) w = (Hangs, w).
Proof. reflexivity. Qed.

(** Reduce up to the reading of the body, then read it. *)
Ltac body_read := cbn -[read_json]; rewrite ?read_json_complete, ?read_json_endless; cbn.


Lemma ok_not_401 r : ok r = true -> (status r =? 401) = false.
Proof. unfold ok. intros H. apply andb_prop in H as [_ H]. lia. Qed.

Lemma is_401_not_ok r : (status r =? 401) = true -> ok r = false.
Proof. unfold ok. intros H. apply Z.eqb_eq in H. rewrite H. reflexivity. Qed.

(** ** The wire log only grows *)

Section Keeps.

Context {A B : Type} (base : list Exchange).

Lemma keeps_ret (a : A) : keeps base (ret a).
Proof. intros w H. exact H. Qed.

Lemma keeps_throw e : keeps base (@throw A e).
Proof. intros w H. exact H. Qed.

Lemma keeps_out_of_fuel : keeps base (@out_of_fuel A).
Proof. intros w H. exact H. Qed.

Lemma keeps_read (f : World -> A) : keeps base (read f).
Proof. intros w H. exact H. Qed.

Lemma keeps_bind (m : Async A) (k : A -> Async B) :
  keeps base m -> (forall a, keeps base (k a)) -> keeps base (bind m k).
Proof.
  intros Hm Hk w H. unfold bind. specialize (Hm w H).
  destruct (m w) as [[a | e | | ] w1]; cbn in *; auto. apply Hk, Hm.
Qed.

Lemma keeps_try_catch (m : Async A) (h : JsError -> Async A) :
  keeps base m -> (forall e, keeps base (h e)) -> keeps base (try_catch m h).
Proof.
  intros Hm Hh w H. unfold try_catch. specialize (Hm w H).
  destruct (m w) as [[a | e | | ] w1]; cbn in *; auto. apply Hh, Hm.
Qed.

End Keeps.

Lemma keeps_get_prop base v k : keeps base (get_prop v k).
Proof. destruct v; intros w H; exact H. Qed.

Lemma keeps_setItem base k v : keeps base (setItem k v).
Proof. intros w H. exact H. Qed.

Lemma keeps_logout base : keeps base logout.
Proof. intros w H. exact H. Qed.

Lemma keeps_console_error base e : keeps base (console_error e).
Proof. intros w H. exact H. Qed.

Lemma keeps_setTimeout base d : keeps base (setTimeout d).
Proof. intros w H. exact H. Qed.

Lemma keeps_clearTimeout base id : keeps base (clearTimeout id).
Proof. intros w H. exact H. Qed.

Lemma fetch_log server req signal w :
  log (snd (fetch server req signal w)) = (req, server (log w) req) :: log w.
Proof.
  unfold fetch.
  destruct (server (log w) req) as [latency r | latency st | latency msg | ];
    destruct (timers w !! signal); try destruct (_ <? _)%N; reflexivity.
Qed.

Lemma keeps_fetch server base req signal : keeps base (fetch server req signal).
Proof. intros w H. rewrite fetch_log. by apply suffix_cons_r. Qed.

Lemma keeps_read_json base response : keeps base (read_json response).
Proof.
  intros w H. unfold read_json, try_catch, json.
  destruct (body_arrives response); [ destruct (parsed response) | ]; exact H.
Qed.

Create HintDb keeps.
#[local] Hint Resolve keeps_read_json keeps_ret keeps_throw keeps_out_of_fuel keeps_read keeps_get_prop
  keeps_setItem keeps_logout keeps_console_error keeps_setTimeout keeps_clearTimeout
  keeps_fetch : keeps.

Ltac keeps_step :=
  match goal with
  | |- keeps _ (bind _ _) => apply keeps_bind; [ | intros ? ]
  | |- keeps _ (try_catch _ _) => apply keeps_try_catch; [ | intros ? ]
  | |- keeps _ (if ?c then _ else _) => destruct c
  | |- keeps _ (match ?x with _ => _ end) => destruct x
  | |- _ => solve [ auto with keeps ]
  end.

Lemma keeps_refreshToken_with base post :
  (forall endpoint data, keeps base (post endpoint data)) ->
  keeps base (refreshToken_with post).
Proof. intros Hpost. unfold refreshToken_with. repeat keeps_step. Qed.

Lemma keeps_request server this base fuel :
  forall endpoint options, keeps base (request server this fuel endpoint options).
Proof.
  induction fuel as [ | fuel IH ]; intros endpoint options; cbn [request].
  - auto with keeps.
  - repeat keeps_step. apply keeps_refreshToken_with. intros ep data. apply IH.
Qed.

(** Whatever follows it, the fetch that opens the [try] block stays on the
    log, right on top of what was there. *)
Lemma first_fetch_logged {A B} server base d config w
    (K : nat -> Received -> Async A) (H : JsError -> Async A) (FINAL : A -> Async B) :
  base = (config, server (log w) config) :: log w ->
  (forall id r, keeps base (K id r)) ->
  (forall e, keeps base (H e)) ->
  (forall a, keeps base (FINAL a)) ->
  base `suffix_of`
    log (snd (bind (try_catch
                      (bind (setTimeout d) (fun id => bind (fetch server config id) (K id))) H)
                   FINAL w)).
Proof.
  intros Hbase HK HH HF.
  assert (Hfetch := fetch_log server config (next_timer w) (snd (setTimeout d w))).
  cbn [setTimeout snd log] in Hfetch. rewrite <- Hbase in Hfetch.
  unfold bind at 1. unfold try_catch at 1. unfold bind at 1. unfold setTimeout at 1.
  unfold bind at 1.
  destruct (fetch server config (next_timer w) _) as [[r | e | | ] w1]; cbn [snd] in Hfetch.
  - pose proof (HK (next_timer w) r w1) as H1. rewrite Hfetch in H1.
    specialize (H1 (reflexivity _)).
    destruct (K (next_timer w) r w1) as [[a | e | | ] w2]; cbn [snd] in *; auto.
    + apply HF, H1.
    + pose proof (HH e w2 H1) as H2.
      destruct (H e w2) as [[a | e' | | ] w3]; cbn [snd] in *; auto. apply HF, H2.
  - pose proof (HH e w1) as H2. rewrite Hfetch in H2. specialize (H2 (reflexivity _)).
    destruct (H e w1) as [[a | e' | | ] w3]; cbn [snd] in *; auto. apply HF, H2.
  - cbn. rewrite Hfetch. reflexivity.
  - cbn. rewrite Hfetch. reflexivity.
Qed.

(** ** The expiry-retry protocol *)

(** The scenario of one expired access token: 401, a successful refresh,
    then 200.  Two fetches of the endpoint, one of the refresh endpoint. *)
Example retry_once_then_success :
  let '(outcome, w) :=
    request expired_once api 5 API_CONFIG.ENDPOINTS.EVENTS no_options (fresh_world session) in
  outcome = Resolved (JObj [("count", JNum (int 0))])
  /\ urls w = [ "http://localhost:8000/api/events/events/";
                "http://localhost:8000/api/token/refresh/";
                "http://localhost:8000/api/events/events/" ]
  /\ authorizations w = [ Some "Bearer A2"; Some "Bearer A1"; Some "Bearer A1" ].
Proof. vm_compute. auto. Qed.

(** 401 on the original and on the retried request: the call fails after
    one refresh, without a further retry. *)
Example retried_401_is_final :
  let '(outcome, w) :=
    request stale_access api 5 API_CONFIG.ENDPOINTS.EVENTS no_options (fresh_world session) in
  outcome = Rejected (Error "Token expired")
  /\ urls w = [ "http://localhost:8000/api/events/events/";
                "http://localhost:8000/api/token/refresh/";
                "http://localhost:8000/api/events/events/" ].
Proof. vm_compute. auto. Qed.

Lemma refresh_chain_S n endpoint :
  refresh_chain (S n) endpoint
    = (refresh_chain n API_CONFIG.ENDPOINTS.REFRESH ++ [(baseUrl api ++ endpoint)%string])%list.
Proof.
  destruct n as [ | k ]; [ reflexivity | ].
  unfold refresh_chain. f_equal. cbn [repeat]. apply repeat_cons.
Qed.

(** Against a back end that answers 401 everywhere, a call with a stored
    refresh token uses up any call depth: each level issues one fetch and
    then asks for a refresh, whose own 401 asks for a refresh again. *)
Lemma refresh_loop fuel :
  forall endpoint options w,
    not_false (retry options) = true ->
    present (getItem "refresh_token" w) = true ->
    exists w',
      request always_401 api fuel endpoint options w = (OutOfFuel, w')
      /\ urls w' = (refresh_chain fuel endpoint ++ urls w)%list.
Proof.
  induction fuel as [ | fuel IH ]; intros endpoint options w Hretry Htoken.
  - eexists; split; reflexivity.
  - rewrite refresh_chain_S.
    enter_request. unfold always_401 at 1. cbn. rewrite Hretry. cbn.
    unfold refreshToken_with at 1. unfold_async. cbn.
    unfold getItem in Htoken.
    destruct (storage w !! "refresh_token") as [token | ] eqn:Hget; [ | discriminate ].
    rewrite Htoken.
    match goal with
    | |- context [post_with _ ?ep ?d ?w0] =>
        destruct (IH ep (post_options d) w0) as (w' & Hloop & Hurls);
          [ reflexivity | unfold getItem; cbn; rewrite Hget; exact Htoken | ];
          unfold post_with; cbn [or_empty_object]; unfold post_options in Hloop; rewrite Hloop
    end.
    eexists; split; [reflexivity | ]. rewrite Hurls. rewrite <- app_assoc. reflexivity.
Qed.

(** C1, the failing input.  With a refresh token stored and a back end
    that answers 401 to every request, [request] never settles: whatever
    the bound on the call depth, the run reaches it, having fetched the
    endpoint once and then the refresh endpoint once per further level. *)
Theorem request_refresh_loop fuel :
  exists w',
    request always_401 api (S fuel) API_CONFIG.ENDPOINTS.EVENTS no_options (fresh_world session)
      = (OutOfFuel, w')
    /\ urls w' = (repeat "http://localhost:8000/api/token/refresh/" fuel
                  ++ ["http://localhost:8000/api/events/events/"])%list.
Proof.
  destruct (refresh_loop (S fuel) API_CONFIG.ENDPOINTS.EVENTS no_options (fresh_world session))
    as (w' & Hloop & Hurls); [ reflexivity | reflexivity | ].
  exists w'. split; [exact Hloop | ]. rewrite Hurls. cbn [urls fresh_world log map].
  rewrite app_nil_r. reflexivity.
Qed.

Section Properties.

Variable server : Server.

(** A refused request rejects, whatever the error. *)
Lemma request_refused fuel endpoint options w :
  refused 30000 (server (log w) (build_config api endpoint options w)) = true ->
  exists e w', request server api (S fuel) endpoint options w = (Rejected e, w').
Proof.
  intros H. enter_request.
  destruct (server (log w) (build_config api endpoint options w))
    as [latency r | latency st | latency msg | ]; cbn in H.
  - destruct (latency <? 30000)%N; [ | cbn; eauto ].
    apply andb_prop in H as [Hok H401]. apply negb_true_iff in H401.
    cbn -[read_json]. rewrite H401. body_read. rewrite Hok. cbn.
    destruct (json_or_empty r) as [ | | b | n | s | xs | fields ]; cbn; eauto;
      destruct (truthy _); cbn; eauto.
  - destruct (latency <? 30000)%N; [ discriminate | cbn; eauto ].
  - destruct (latency <? 30000)%N; cbn; eauto.
  - cbn; eauto.
Qed.

(** C2, as amended.  When a refresh token is stored and the refresh
    request is refused (network failure, no answer in time, or a status
    that is neither a success nor 401), [refreshToken] returns false and
    has logged out: both tokens are gone and [isAuthenticated] is false.
    When no refresh token is stored (none, or an empty one),
    [refreshToken] returns false at once, for any back end and any call
    depth, and the browser state is exactly what it was: storage is
    untouched, nothing is fetched, nobody is logged out. *)
Theorem refresh_refused_clears_session fuel w :
  (forall token,
      getItem "refresh_token" w = Some token ->
      token <> EmptyString ->
      refused 30000
        (server (log w)
           (build_config api API_CONFIG.ENDPOINTS.REFRESH
              (post_options (JObj [("refresh", JStr token)])) w)) = true ->
      exists w',
        refreshToken server api (S fuel) w = (Resolved false, w')
        /\ getItem "access_token" w' = None
        /\ getItem "refresh_token" w' = None
        /\ isAuthenticated w' = false
        /\ location w' = "/pages/login.html")
  /\ (present (getItem "refresh_token" w) = false ->
      refreshToken server api fuel w = (Resolved false, w)
      /\ isAuthenticated w = present (getItem "access_token" w)).
Proof.
  split.
  - intros token Htok Hne H.
    destruct (request_refused fuel _ _ _ H) as (e & w1 & Hreq).
    unfold refreshToken, refreshToken_with, post, post_with, try_catch, bind, read.
    rewrite Htok. cbn [present or_empty_object].
    apply String.eqb_neq in Hne. rewrite Hne. cbn [negb].
    unfold post_options in Hreq. rewrite Hreq.
    unfold logout, ret, isAuthenticated, getItem, removeItem. cbn.
    eexists; split; [reflexivity | ]. cbn.
    rewrite lookup_delete_eq.
    rewrite lookup_delete_ne by discriminate. rewrite lookup_delete_eq. auto.
  - intros Hnone. split; [ | reflexivity ].
    unfold refreshToken, refreshToken_with, try_catch, bind, read.
    destruct (getItem "refresh_token" w) as [token | ]; [ | reflexivity ].
    rewrite Hnone. reflexivity.
Qed.

(** The sibling path: when a response arrives in time and no retry is
    attempted, the timer is cleared, whether the call then resolves or
    rejects. *)
Lemma request_response_clears_timer fuel endpoint options w latency r :
  server (log w) (build_config api endpoint options w) = Resolves latency r ->
  (latency < 30000)%N ->
  (status r =? 401) && not_false (retry options) = false ->
  timers (snd (request server api (S fuel) endpoint options w)) !! next_timer w = None.
Proof.
  intros H Hlat Hretry. enter_request. rewrite H. in_time Hlat.
  cbn -[read_json]. rewrite Hretry. body_read.
  destruct (ok r); cbn; [ apply lookup_delete_eq | ].
  destruct (json_or_empty r) as [ | | b | n | s | xs | fields ]; cbn;
    try apply lookup_delete_eq;
    destruct (truthy _); cbn; apply lookup_delete_eq.
Qed.

(** C3, the failing path.  When the fetch is rejected by a network
    failure, [request] rejects with that error and the timer it armed is
    still pending. *)
Theorem request_network_failure_keeps_timer fuel endpoint options w latency msg :
  server (log w) (build_config api endpoint options w) = Fails latency msg ->
  (latency < 30000)%N ->
  exists w',
    request server api (S fuel) endpoint options w = (Rejected (TypeError msg), w')
    /\ timers w' !! next_timer w = Some 30000%N.
Proof.
  intros H Hlat. enter_request. rewrite H. in_time Hlat. cbn.
  eexists; split; [reflexivity | cbn; apply lookup_insert_eq].
Qed.

(** C4, as amended.  The first request that [request] puts on the wire is
    the one built from its arguments.  Every header the caller supplies is
    on that request with the caller's value, [Authorization] and
    [Content-Type] included: caller headers take precedence over the
    default ones.  A header name the caller does not supply has its
    default value: [Content-Type] is [application/json], and the request
    carries [Authorization: Bearer <token>] if [auth] is not false and a
    non-empty access token is stored, and no [Authorization] header
    otherwise. *)
Theorem authorization_header fuel endpoint options w :
  let config := build_config api endpoint options w in
  (exists newer,
      log (snd (request server api (S fuel) endpoint options w))
        = (newer ++ (config, server (log w) config) :: log w)%list)
  /\ (forall name v,
        headers options !! name = Some v -> req_headers config !! name = Some v)
  /\ (headers options !! "Content-Type" = None ->
      req_headers config !! "Content-Type" = Some "application/json")
  /\ (headers options !! "Authorization" = None ->
      req_headers config !! "Authorization"
      = match getItem "access_token" w with
        | Some token =>
            if not_false (auth options) && negb (String.eqb token EmptyString)
            then Some ("Bearer " ++ token)
            else None
        | None => None
        end)
  /\ (forall name,
        headers options !! name = None ->
        name <> "Content-Type" -> name <> "Authorization" ->
        req_headers config !! name = None).
Proof.
  intros config. split; [ | split; [ | split; [ | split ] ] ].
  - cbn [request]. unfold bind at 1. unfold read at 1. fold config.
    apply first_fetch_logged; [reflexivity | intros .. ]; repeat keeps_step.
    + apply keeps_refreshToken_with. intros ep data. apply keeps_request.
    + apply keeps_request.
  - intros name v Hcaller.
    unfold config, build_config. cbn [req_headers].
    rewrite lookup_union, Hcaller.
    destruct (API_CONFIG.getHeaders _ w !! name); reflexivity.
  - intros Hcaller.
    unfold config, build_config, API_CONFIG.getHeaders. cbn [req_headers].
    rewrite lookup_union, Hcaller.
    destruct (not_false (auth options)); [ | rewrite lookup_singleton_eq; reflexivity ].
    destruct (getItem "access_token" w) as [token | ];
      [ | rewrite lookup_singleton_eq; reflexivity ].
    destruct (present (Some token)); [ | rewrite lookup_singleton_eq; reflexivity ].
    rewrite lookup_insert_ne by discriminate. rewrite lookup_singleton_eq. reflexivity.
  - intros Hcaller.
    unfold config, build_config, API_CONFIG.getHeaders. cbn [req_headers].
    rewrite lookup_union, Hcaller.
    destruct (not_false (auth options)); cbn [andb].
    + destruct (getItem "access_token" w) as [token | ]; cbn [present].
      * destruct (String.eqb token EmptyString); cbn [negb].
        -- rewrite lookup_singleton_ne by discriminate. reflexivity.
        -- rewrite lookup_insert_eq. reflexivity.
      * rewrite lookup_singleton_ne by discriminate. reflexivity.
    + rewrite lookup_singleton_ne by discriminate.
      destruct (getItem "access_token" w); reflexivity.
  - intros name Hcaller Htype Hauth.
    unfold config, build_config, API_CONFIG.getHeaders. cbn [req_headers].
    rewrite lookup_union, Hcaller.
    destruct (not_false (auth options));
      [ | rewrite lookup_singleton_ne by congruence; reflexivity ].
    destruct (getItem "access_token" w) as [token | ];
      [ | rewrite lookup_singleton_ne by congruence; reflexivity ].
    destruct (present (Some token));
      [ | rewrite lookup_singleton_ne by congruence; reflexivity ].
    rewrite lookup_insert_ne by congruence.
    rewrite lookup_singleton_ne by congruence. reflexivity.
Qed.



(** C7.  A timely success-status response whose body is not JSON makes
    [request] resolve with the empty object. *)
Theorem request_malformed_success_body fuel endpoint options w latency r :
  server (log w) (build_config api endpoint options w) = Resolves latency r ->
  (latency < 30000)%N ->
  ok r = true ->
  parsed r = None ->
  exists w',
    request server api (S fuel) endpoint options w = (Resolved (JObj []), w').
Proof.
  intros H Hlat Hok Hbody. enter_request. rewrite H. in_time Hlat. cbn -[read_json].
  rewrite (ok_not_401 _ Hok). body_read. rewrite Hok. cbn.
  unfold json_or_empty. rewrite Hbody. cbn. eexists; reflexivity.
Qed.

(** When [request] resolves, the latest exchange on the wire is a timely
    success-status response to this endpoint, and the value is its
    decoded body. *)
Lemma request_resolved fuel :
  forall endpoint options w v w',
    request server api fuel endpoint options w = (Resolved v, w') ->
    exists config latency r rest,
      log w' = (config, Resolves latency r) :: rest
      /\ log w `suffix_of` rest
      /\ url config = baseUrl api ++ endpoint
      /\ (latency < 30000)%N
      /\ ok r = true
      /\ v = json_or_empty r.
Proof.
  induction fuel as [ | fuel IH ]; intros endpoint options w v w' H; [ discriminate | ].
  revert H. enter_request.
  destruct (server (log w) (build_config api endpoint options w))
    as [latency r | latency st | latency msg | ] eqn:Hreply;
    [ | | destruct (latency <? 30000)%N; cbn; discriminate | cbn; discriminate ].
  2: { destruct (latency <? 30000)%N; [ body_read | cbn ]; try discriminate.
       destruct (_ && _); [ | discriminate ].
       match goal with
       | |- context [refreshToken_with ?p ?w0] =>
           pose proof (keeps_refreshToken_with (log w) p
                         (fun ep d => keeps_request server api (log w) fuel ep _) w0) as Hkeep;
           destruct (refreshToken_with p w0) as [[[ | ] | e | | ] w2]
       end; cbn [snd log set_timers record_exchange] in Hkeep; cbn; try discriminate.
       - intros H.
         apply IH in H as (config & lat' & r' & rest & Hlog & Hsuf & Hurl & Hl & Hok & Hv).
         exists config, lat', r', rest. repeat split; auto.
         etrans; [ apply Hkeep; by apply suffix_cons_r | exact Hsuf ].
       - destruct (String.eqb _ _); discriminate. }
  destruct (latency <? 30000)%N eqn:Hlat; [ | cbn; discriminate ].
  apply N.ltb_lt in Hlat. cbn -[read_json].
  destruct ((status r =? 401) && not_false (retry options)) eqn:Hretry.
  - apply andb_prop in Hretry as [H401 _]. rewrite (is_401_not_ok _ H401). cbn [negb].
    match goal with
    | |- context [refreshToken_with ?p ?w0] =>
        pose proof (keeps_refreshToken_with (log w) p
                      (fun ep d => keeps_request server api (log w) fuel ep _) w0) as Hkeep;
        destruct (refreshToken_with p w0) as [[[ | ] | e | | ] w2]
    end; cbn [snd log set_timers record_exchange] in Hkeep.
    + intros H.
      apply IH in H as (config & lat' & r' & rest & Hlog & Hsuf & Hurl & Hl & Hok & Hv).
      exists config, lat', r', rest. repeat split; auto.
      etrans; [ apply Hkeep; by apply suffix_cons_r | exact Hsuf ].
    + body_read. destruct (json_or_empty r); cbn; try discriminate;
        destruct (truthy _); cbn; discriminate.
    + cbn. destruct (String.eqb _ _); discriminate.
    + discriminate.
    + discriminate.
  - body_read. destruct (ok r) eqn:Hok; cbn.
    + intros H. injection H as <- <-. cbn.
      exists (build_config api endpoint options w), latency, r, (log w).
      repeat split; auto.
    + destruct (json_or_empty r); cbn; try discriminate;
        destruct (truthy _); cbn; discriminate.
Qed.





End Properties.

(** C10.  [logout] removes [access_token] and [refresh_token] from
    storage and leaves every other key as it was. *)
Theorem logout_storage_frame (w : World) :
  let w' := snd (logout w) in
  getItem "access_token" w' = None
  /\ getItem "refresh_token" w' = None
  /\ forall k, k <> "access_token" -> k <> "refresh_token" -> getItem k w' = getItem k w.
Proof.
  unfold logout, getItem, removeItem. cbn. repeat split.
  - rewrite lookup_delete_ne by discriminate. apply lookup_delete_eq.
  - apply lookup_delete_eq.
  - intros k Ha Hr. rewrite !lookup_delete_ne by congruence. reflexivity.
Qed.

(** ** Concrete runs *)

(** The login scenario: the token pair is stored, and the next [get]
    carries the bearer token. *)
Example login_then_get :
  let '(outcome, w) := login token_service api 1 alice secret (fresh_world ∅) in
  let '(_, w') := get token_service api 1 API_CONFIG.ENDPOINTS.EVENTS [] w in
  getItem "access_token" w = Some "A1"
  /\ getItem "refresh_token" w = Some "R1"
  /\ authorizations w' = [ Some "Bearer A1"; None ].
Proof. vm_compute. auto. Qed.

(** Integer-like keys of the parameter object come first in the query
    string, in ascending order; a key written twice keeps its place and
    takes its last value. *)
Example integer_keys_come_first :
  URLSearchParams [("page", JNum (int 2)); ("10", JStr "b"); ("2", JStr "a");
                   ("page", JNum (int 3))]
  = "2=a&10=b&page=3".
Proof. reflexivity. Qed.

(** [post] called without data sends the empty object. *)
Example post_without_data :
  map (fun exchange => req_body (fst exchange))
      (log (snd (post offline api 1 API_CONFIG.ENDPOINTS.EVENTS JUndefined
                   (fresh_world session))))
  = [ Some (JObj []) ].
Proof. reflexivity. Qed.

(** A numeric [detail] is shown the way [String] prints the number. *)
Example numeric_detail_message :
  fst (request
         (fun _ _ =>
            Resolves 20 (mkResponse 500 (Some (JObj [("detail", JNum (mkNumber true "1e+21"))]))))
         api 1 API_CONFIG.ENDPOINTS.EVENTS no_options (fresh_world session))
    = Rejected (Error "1e+21").
Proof. reflexivity. Qed.

(** A failure status with a body that is not JSON gets the generic
    message. *)
Example generic_error_message :
  fst (request (fun _ _ => Resolves 20 (mkResponse 500 None)) api 1
         API_CONFIG.ENDPOINTS.EVENTS no_options (fresh_world session))
    = Rejected (Error "Error 500").
Proof. reflexivity. Qed.

(** C2.  Without a refresh token [refreshToken] returns false and leaves
    the session as it is: the access token stays, [isAuthenticated] stays
    true. *)
Lemma refresh_without_token_keeps_session :
  let w := fresh_world {[ "access_token" := "A1" ]} in
  refreshToken offline api 1 w = (Resolved false, w)
  /\ isAuthenticated w = true.
Proof. split; reflexivity. Qed.

Lemma refresh_refused_clears_session_witness :
  let anonymous := fresh_world {[ "access_token" := "A1" ]} in
  (exists w',
      refreshToken offline api 1 (fresh_world session) = (Resolved false, w')
      /\ getItem "access_token" w' = None
      /\ getItem "refresh_token" w' = None
      /\ isAuthenticated w' = false
      /\ location w' = "/pages/login.html")
  /\ refreshToken always_401 api 7 anonymous = (Resolved false, anonymous)
  /\ isAuthenticated anonymous = true.
Proof.
  intros anonymous. split.
  - apply (proj1 (refresh_refused_clears_session offline 0 (fresh_world session)) "R1");
      [ reflexivity | discriminate | reflexivity ].
  - apply (proj2 (refresh_refused_clears_session always_401 7 anonymous)). reflexivity.
Defined.

Lemma request_network_failure_keeps_timer_witness :
  exists w',
    request offline api 1 API_CONFIG.ENDPOINTS.EVENTS no_options (fresh_world session)
      = (Rejected (TypeError "Failed to fetch"), w')
    /\ timers w' !! 0%nat = Some 30000%N.
Proof.
  apply (request_network_failure_keeps_timer offline 0 API_CONFIG.ENDPOINTS.EVENTS
           no_options (fresh_world session) 5 "Failed to fetch");
    [ reflexivity | lia ].
Defined.

(** C4.  A caller that passes its own [Authorization] header overrides
    the bearer token, with [auth] enabled and a token stored. *)
Lemma caller_authorization_wins :
  let options := mkOptions None None {[ "Authorization" := "Basic Zm9v" ]} None None in
  let w := fresh_world session in
  not_false (auth options) = true
  /\ getItem "access_token" w = Some "A1"
  /\ authorizations (snd (request offline api 1 API_CONFIG.ENDPOINTS.EVENTS options w))
     = [ Some "Basic Zm9v" ].
Proof. vm_compute. auto. Qed.

Lemma authorization_header_witness :
  let w := fresh_world session in
  let basic := mkOptions None None {[ "Authorization" := "Basic Zm9v" ]} None None in
  let plain := build_config api API_CONFIG.ENDPOINTS.EVENTS no_options w in
  let custom := build_config api API_CONFIG.ENDPOINTS.EVENTS basic w in
  (exists newer,
      log (snd (request offline api 1 API_CONFIG.ENDPOINTS.EVENTS no_options w))
        = (newer ++ [(plain, Fails 5 "Failed to fetch")])%list)
  /\ req_headers plain !! "Authorization" = Some "Bearer A1"
  /\ req_headers plain !! "Content-Type" = Some "application/json"
  /\ req_headers custom !! "Authorization" = Some "Basic Zm9v"
  /\ req_headers custom !! "Content-Type" = Some "application/json".
Proof.
  intros w basic plain custom.
  destruct (authorization_header offline 0 API_CONFIG.ENDPOINTS.EVENTS no_options w)
    as (Hlog & _ & Htype & Hauth & _).
  destruct (authorization_header offline 0 API_CONFIG.ENDPOINTS.EVENTS basic w)
    as (_ & Hcaller & Htype' & _).
  split; [ exact Hlog | ].
  split; [ apply Hauth; reflexivity | ].
  split; [ apply Htype; reflexivity | ].
  split; [ apply Hcaller; reflexivity | apply Htype'; reflexivity ].
Defined.





Lemma request_malformed_success_body_witness :
  exists w',
    request garbled api 1 API_CONFIG.ENDPOINTS.EVENTS no_options (fresh_world session)
      = (Resolved (JObj []), w').
Proof.
  apply (request_malformed_success_body garbled 0 API_CONFIG.ENDPOINTS.EVENTS no_options
           (fresh_world session) 20 (mkResponse 200 None));
    [ reflexivity | lia | reflexivity | reflexivity ].
Defined.


(** With a body that never ends, a pass-through caller stays pending, and
    so do the callers that catch: there is nothing to catch. *)
Example callers_wait_for_a_stalled_body :
  fst (getEvents stalled_body api 1 [] (fresh_world session)) = Hangs
  /\ fst (healthCheck stalled_body api 1 (fresh_world session)) = Hangs
  /\ fst (login stalled_body api 1 alice secret (fresh_world session)) = Hangs.
Proof. repeat split; reflexivity. Qed.


Lemma logout_storage_frame_witness :
  getItem "user" (snd (logout (fresh_world session))) = Some "{}".
Proof.
  destruct (logout_storage_frame (fresh_world session)) as (_ & _ & Hframe).
  rewrite Hframe; [ reflexivity | discriminate | discriminate ].
Defined.

(** * Further properties of the API client *)

Section SingleExchange.

Variable server : Server.

(** Unless the first answer is a timely 401 with [retry] left on,
    [request] makes its one fetch and touches neither storage nor
    location; it then settles, except that it waits for ever when the
    headers came in time and the body never does. *)
Lemma request_one_exchange fuel endpoint options w :
  timely_401 30000 (server (log w) (build_config api endpoint options w))
    && not_false (retry options) = false ->
  let reply := server (log w) (build_config api endpoint options w) in
  let result := request server api (S fuel) endpoint options w in
  (if endless_body 30000 reply then fst result = Hangs else settled (fst result) = true)
  /\ log (snd result) = (build_config api endpoint options w, reply) :: log w
  /\ storage (snd result) = storage w
  /\ location (snd result) = location w.
Proof.
  intros H reply result. subst reply result. enter_request.
  destruct (server (log w) (build_config api endpoint options w))
    as [latency r | latency st | latency msg | ]; cbn in H; cbn [endless_body].
  - destruct (latency <? 30000)%N; cbn in H; [ | cbn; auto ].
    cbn -[read_json]. rewrite H. body_read.
    destruct (ok r); cbn; [ auto | ].
    destruct (json_or_empty r) as [ | | b | n | s | xs | fields ]; cbn; auto;
      destruct (truthy _); cbn; auto.
  - destruct (latency <? 30000)%N; cbn in H; [ | cbn; auto ].
    cbn -[read_json]. rewrite H. body_read. auto.
  - destruct (latency <? 30000)%N; cbn; auto.
  - cbn; auto.
Qed.

Lemma request_one_exchange_fuel fuel endpoint options w :
  timely_401 30000 (server (log w) (build_config api endpoint options w))
    && not_false (retry options) = false ->
  request server api (S fuel) endpoint options w = request server api 1 endpoint options w.
Proof.
  intros H. cbn [request]. unfold_async. cbn [log timers timeout api new_APIClient].
  unfold API_CONFIG.TIMEOUT. rewrite !lookup_insert_eq.
  destruct (server (log w) (build_config api endpoint options w))
    as [latency r | latency st | latency msg | ]; cbn in H.
  - destruct (latency <? 30000)%N; cbn in H; [ | reflexivity ].
    cbn -[read_json]. rewrite H. body_read.
    destruct (ok r); cbn; [ reflexivity | ].
    destruct (json_or_empty r) as [ | | b | n | s | xs | fields ]; cbn; try reflexivity;
      destruct (truthy _); cbn; reflexivity.
  - destruct (latency <? 30000)%N; cbn in H; [ | reflexivity ].
    cbn -[read_json]. rewrite H. body_read. reflexivity.
  - destruct (latency <? 30000)%N; reflexivity.
  - reflexivity.
Qed.

End SingleExchange.

Section Fuel.

Variable server : Server.
Variable this : APIClient.

Lemma request_S fuel endpoint options :
  request server this (S fuel) endpoint options
  = request_body server this
      (refreshToken_with (post_with (request server this fuel)))
      (request server this fuel endpoint (without_retry options))
      endpoint options.
Proof. reflexivity. Qed.

Ltac not_out_of_fuel H :=
  first [ exfalso; apply H; reflexivity | clear H ].

(** A call of [request] whose nested calls settle does not depend on how
    they were bounded. *)
Lemma request_body_congr (r1 r2 : Async bool) (i1 i2 : Async value) endpoint options w :
  (forall W, fst (r1 W) <> OutOfFuel -> r2 W = r1 W) ->
  (forall W, fst (i1 W) <> OutOfFuel -> i2 W = i1 W) ->
  fst (request_body server this r1 i1 endpoint options w) <> OutOfFuel ->
  request_body server this r2 i2 endpoint options w
  = request_body server this r1 i1 endpoint options w.
Proof.
  intros Hr Hi. unfold request_body. unfold_async. cbn [log timers].
  rewrite lookup_insert_eq.
  destruct (server (log w) (build_config this endpoint options w))
    as [latency r | latency st | latency msg | ];
    [ | | destruct (latency <? timeout this)%N; reflexivity | reflexivity ].
  2: { destruct (latency <? timeout this)%N; [ | reflexivity ]. cbn -[read_json].
       destruct ((st =? 401) && not_false (retry options)); [ | reflexivity ].
       match goal with
       | |- context [r1 ?W] =>
           specialize (Hr W); destruct (r1 W) as [[[ | ] | e | | ] w1] eqn:E1; cbn [fst] in Hr
       end; intros Hne; try (rewrite Hr by discriminate); try reflexivity.
       - cbn in Hne |- *. specialize (Hi w1).
         destruct (i1 w1) as [[v | e | | ] w2]; cbn [fst] in Hi, Hne;
           try (rewrite Hi by discriminate); try reflexivity.
         exfalso. apply Hne. reflexivity.
       - cbn. destruct (String.eqb _ _); reflexivity.
       - exfalso. apply Hne. reflexivity. }
  destruct (latency <? timeout this)%N; [ | reflexivity ]. cbn -[read_json].
  destruct ((status r =? 401) && not_false (retry options)).
  - match goal with
    | |- context [r1 ?W] =>
        specialize (Hr W); destruct (r1 W) as [[[ | ] | e | | ] w1] eqn:E1; cbn [fst] in Hr
    end; intros Hne; try (rewrite Hr by discriminate).
    + cbn in Hne |- *. specialize (Hi w1).
      destruct (i1 w1) as [[v | e | | ] w2]; cbn [fst] in Hi, Hne;
        try (rewrite Hi by discriminate); try reflexivity.
      exfalso. apply Hne. reflexivity.
    + clear Hne. body_read. destruct (ok r); cbn; [ reflexivity | ].
      destruct (json_or_empty r); cbn; try reflexivity; destruct (truthy _); reflexivity.
    + cbn. destruct (String.eqb _ _); reflexivity.
    + reflexivity.
    + exfalso. apply Hne. reflexivity.
  - intros _. body_read. destruct (ok r); cbn; [ reflexivity | ].
    destruct (json_or_empty r); cbn; try reflexivity; destruct (truthy _); reflexivity.
Qed.

Lemma refreshToken_congr (p1 p2 : string -> value -> Async value) w :
  (forall endpoint data W, fst (p1 endpoint data W) <> OutOfFuel ->
                           p2 endpoint data W = p1 endpoint data W) ->
  fst (refreshToken_with p1 w) <> OutOfFuel ->
  refreshToken_with p2 w = refreshToken_with p1 w.
Proof.
  intros Hp. unfold refreshToken_with. unfold_async.
  destruct (getItem "refresh_token" w) as [token | ]; [ | reflexivity ].
  destruct (present (Some token)); [ | reflexivity ].
  specialize (Hp API_CONFIG.ENDPOINTS.REFRESH (JObj [("refresh", JStr token)]) w).
  destruct (p1 _ _ w) as [[v | e | | ] w1]; cbn [fst] in Hp; intros Hne;
    try (rewrite Hp by discriminate); try reflexivity.
  exfalso. apply Hne. reflexivity.
Qed.

(** More call depth does not change a run that stayed within its bound. *)
Lemma request_fuel_mono fuel :
  forall endpoint options w,
    fst (request server this fuel endpoint options w) <> OutOfFuel ->
    request server this (S fuel) endpoint options w
    = request server this fuel endpoint options w.
Proof.
  induction fuel as [ | fuel IH ]; intros endpoint options w H.
  - exfalso. apply H. reflexivity.
  - rewrite (request_S (S fuel)), (request_S fuel) in *.
    apply request_body_congr; [ | | exact H ].
    + intros W. apply refreshToken_congr. intros ep data W'. apply IH.
    + intros W. apply IH.
Qed.

Lemma request_fuel_add fuel more endpoint options w :
  fst (request server this fuel endpoint options w) <> OutOfFuel ->
  request server this (more + fuel) endpoint options w
  = request server this fuel endpoint options w.
Proof.
  intros H. induction more as [ | more IH ]; [ reflexivity | ].
  cbn [Nat.add]. rewrite request_fuel_mono; rewrite IH; auto.
Qed.

End Fuel.

Section BoundedRetry.

Variable server : Server.

(** The refresh endpoint never answers with a timely 401. *)
Hypothesis refresh_not_401 :
  forall history req,
    url req = baseUrl api ++ API_CONFIG.ENDPOINTS.REFRESH ->
    timely_401 30000 (server history req) = false.

Lemma refreshToken_completes fuel w :
  exists o w',
    refreshToken server api (S fuel) w = (o, w')
    /\ ((exists refreshed, o = Resolved refreshed)
        \/ (o = Hangs
            /\ exists history req, endless_body 30000 (server history req) = true))
    /\ (length (log w') <= S (length (log w)))%nat.
Proof.
  unfold refreshToken, refreshToken_with, post, post_with, try_catch, bind, read.
  destruct (getItem "refresh_token" w) as [token | ]; [ | cbn; eauto 10 ].
  destruct (present (Some token)); [ | cbn; eauto 10 ].
  cbn [or_empty_object].
  match goal with
  | |- context [request server api (S fuel) ?ep ?o w] =>
      destruct (request_one_exchange server fuel ep o w) as (Hs & Hlog & _);
        [ rewrite refresh_not_401 by reflexivity; reflexivity | ];
        destruct (endless_body 30000 (server (log w) (build_config api ep o w))) eqn:Hbody;
        destruct (request server api (S fuel) ep o w) as [[data | e | | ] w1];
        cbn [fst snd] in Hs, Hlog; try discriminate
  end.
  - eexists _, _; split; [ reflexivity | ]. split; [ right; eauto | ].
    rewrite Hlog. cbn. lia.
  - destruct data; cbn; try destruct (truthy _);
      (eexists _, _; split; [ reflexivity | split; [ left; eauto | cbn; rewrite Hlog; cbn; lia ] ]).
  - eexists _, _; split; [ reflexivity | split; [ left; eauto | cbn; rewrite Hlog; cbn; lia ] ].
Qed.

(** X2.  When the refresh endpoint never answers 401, [request] is done
    within two levels of nested calls, whatever further depth it is
    allowed, and puts at most three requests on the wire.  It settles,
    unless the back end sent the headers of a response in time and never
    its body: then it may wait for that body for ever. *)
Theorem request_bounded_retry fuel endpoint options w :
  let result := request server api (fuel + 2) endpoint options w in
  result = request server api 2 endpoint options w
  /\ (settled (fst result) = true
      \/ (fst result = Hangs
          /\ exists history req, endless_body 30000 (server history req) = true))
  /\ (length (log (snd result)) <= length (log w) + 3)%nat.
Proof.
  assert (H2 : (settled (fst (request server api 2 endpoint options w)) = true
                \/ (fst (request server api 2 endpoint options w) = Hangs
                    /\ exists history req, endless_body 30000 (server history req) = true))
               /\ (length (log (snd (request server api 2 endpoint options w)))
                   <= length (log w) + 3)%nat).
  { destruct (timely_401 30000 (server (log w) (build_config api endpoint options w))
              && not_false (retry options)) eqn:Hfirst.
    - rewrite request_S. unfold request_body. unfold_async.
      cbn [log timers timeout api new_APIClient]. unfold API_CONFIG.TIMEOUT.
      rewrite lookup_insert_eq.
      destruct (server (log w) (build_config api endpoint options w))
        as [latency r | latency st | latency msg | ] eqn:Hreply;
        cbn in Hfirst; try discriminate;
        apply andb_prop in Hfirst as [Hfirst Hretry];
        apply andb_prop in Hfirst as [Hlat H401];
        rewrite Hlat; cbn -[read_json request]; rewrite H401, Hretry; cbn [andb];
        match goal with
        | |- context [refreshToken_with ?p ?W] =>
            destruct (refreshToken_completes 0 W)
              as (o & w1 & Hrefresh & [[refreshed ->] | [-> Hendless]] & Hlen);
              unfold refreshToken, post in Hrefresh; rewrite Hrefresh
        end;
        cbn [log set_timers record_exchange length] in Hlen;
        try (cbn; split; [ right; auto | lia ]);
        destruct refreshed.
      + cbn -[request].
        destruct (request_one_exchange server 0 endpoint (without_retry options) w1)
          as (Hs & Hlog & _); [ apply andb_false_r | ].
        destruct (endless_body 30000 _) eqn:Hbody in Hs;
          destruct (request server api 1 endpoint (without_retry options) w1)
            as [[v | e | | ] w2]; cbn [fst snd] in Hs, Hlog; try discriminate;
          cbn; rewrite Hlog; cbn; (split; [ eauto 10 | lia ]).
      + body_read. rewrite (is_401_not_ok _ H401). cbn.
        destruct (json_or_empty r); cbn; try destruct (truthy _); cbn; split; auto; lia.
      + cbn -[request].
        destruct (request_one_exchange server 0 endpoint (without_retry options) w1)
          as (Hs & Hlog & _); [ apply andb_false_r | ].
        destruct (endless_body 30000 _) eqn:Hbody in Hs;
          destruct (request server api 1 endpoint (without_retry options) w1)
            as [[v | e | | ] w2]; cbn [fst snd] in Hs, Hlog; try discriminate;
          cbn; rewrite Hlog; cbn; (split; [ eauto 10 | lia ]).
      + body_read. split; [ right; split; [ reflexivity | ] | lia ].
        exists (log w), (build_config api endpoint options w).
        rewrite Hreply. cbn. exact Hlat.
    - destruct (request_one_exchange server 1 endpoint options w Hfirst) as (Hs & Hlog & _).
      split; [ | rewrite Hlog; cbn; lia ].
      destruct (endless_body 30000 _) eqn:Hbody in Hs; eauto 10. }
  intros result. subst result.
  rewrite request_fuel_add.
  - split; [ reflexivity | exact H2 ].
  - destruct H2 as [[H2 | [H2 _]] _].
    + destruct (fst (request server api 2 endpoint options w)); discriminate.
    + rewrite H2. discriminate.
Qed.

End BoundedRetry.

(** ** What the client never does *)

Section Preserves.

Context {A B : Type} (I : World -> Prop).

Lemma preserves_ret (a : A) : preserves I (ret a).
Proof. intros w H. exact H. Qed.

Lemma preserves_throw e : preserves I (@throw A e).
Proof. intros w H. exact H. Qed.

Lemma preserves_out_of_fuel : preserves I (@out_of_fuel A).
Proof. intros w H. exact H. Qed.

Lemma preserves_read (f : World -> A) : preserves I (read f).
Proof. intros w H. exact H. Qed.

Lemma preserves_bind (m : Async A) (k : A -> Async B) :
  preserves I m -> (forall a, preserves I (k a)) -> preserves I (bind m k).
Proof.
  intros Hm Hk w H. unfold bind. specialize (Hm w H).
  destruct (m w) as [[a | e | | ] w1]; cbn in *; auto. apply Hk, Hm.
Qed.

(** After a read the continuation runs on what was read. *)
Lemma preserves_bind_read (f : World -> A) (k : A -> Async B) :
  (forall w0, preserves I (k (f w0))) -> preserves I (bind (read f) k).
Proof. intros Hk w H. unfold bind, read. apply Hk, H. Qed.

Lemma preserves_try_catch (m : Async A) (h : JsError -> Async A) :
  preserves I m -> (forall e, preserves I (h e)) -> preserves I (try_catch m h).
Proof.
  intros Hm Hh w H. unfold try_catch. specialize (Hm w H).
  destruct (m w) as [[a | e | | ] w1]; cbn in *; auto. apply Hh, Hm.
Qed.

End Preserves.

Lemma preserves_get_prop I v k : preserves I (get_prop v k).
Proof. destruct v; intros w H; exact H. Qed.

Lemma preserves_read_json I response : preserves I (read_json response).
Proof.
  intros w H. unfold read_json, try_catch, json.
  destruct (body_arrives response); [ destruct (parsed response) | ]; exact H.
Qed.

Ltac preserves_step :=
  match goal with
  | |- preserves _ (bind (read _) _) => apply preserves_bind_read; intros ?
  | |- preserves _ (read_json _) => apply preserves_read_json
  | |- preserves _ (bind _ _) => apply preserves_bind; [ | intros ? ]
  | |- preserves _ (try_catch _ _) => apply preserves_try_catch; [ | intros ? ]
  | |- preserves _ (ret _) => apply preserves_ret
  | |- preserves _ (throw _) => apply preserves_throw
  | |- preserves _ out_of_fuel => apply preserves_out_of_fuel
  | |- preserves _ (get_prop _ _) => apply preserves_get_prop
  | |- preserves _ (if ?c then _ else _) => destruct c
  | |- preserves _ (match ?x with _ => _ end) => destruct x
  | |- _ => solve [ auto ]
  end.

Section ClientPreserves.

Variable server : Server.
Variable this : APIClient.
Variable I : World -> Prop.

Hypothesis I_setTimeout : forall delay, preserves I (setTimeout delay).
Hypothesis I_clearTimeout : forall id, preserves I (clearTimeout id).
Hypothesis I_fetch :
  forall endpoint options w0 signal,
    preserves I (fetch server (build_config this endpoint options w0) signal).
Hypothesis I_console_error : forall e, preserves I (console_error e).
Hypothesis I_access_token : forall v, preserves I (setItem "access_token" v).
Hypothesis I_logout : preserves I logout.

Lemma preserves_refreshToken_with post :
  (forall endpoint data, preserves I (post endpoint data)) ->
  preserves I (refreshToken_with post).
Proof. intros Hpost. unfold refreshToken_with. repeat preserves_step. Qed.

Lemma preserves_request fuel :
  forall endpoint options, preserves I (request server this fuel endpoint options).
Proof.
  induction fuel as [ | fuel IH ]; intros endpoint options; cbn [request].
  - apply preserves_out_of_fuel.
  - repeat preserves_step. apply preserves_refreshToken_with. intros ep data. apply IH.
Qed.

Lemma preserves_refreshToken fuel : preserves I (refreshToken server this fuel).
Proof. apply preserves_refreshToken_with. intros ep data. apply preserves_request. Qed.

Lemma preserves_login fuel username password :
  (forall v, preserves I (setItem "refresh_token" v)) ->
  preserves I (login server this fuel username password).
Proof.
  intros I_refresh_token. unfold login, post, post_with.
  repeat preserves_step. apply preserves_request.
Qed.

End ClientPreserves.

Section Never.

Variable server : Server.
Variable this : APIClient.

(** X4.  [request], [refreshToken] and [login] leave every storage key
    other than [access_token] and [refresh_token] as it was. *)
Theorem client_storage_frame fuel k :
  k <> "access_token" ->
  k <> "refresh_token" ->
  forall w,
    (forall endpoint options,
        getItem k (snd (request server this fuel endpoint options w)) = getItem k w)
    /\ getItem k (snd (refreshToken server this fuel w)) = getItem k w
    /\ (forall username password,
           getItem k (snd (login server this fuel username password w)) = getItem k w).
Proof.
  intros Ha Hr w.
  set (I := fun w' : World => getItem k w' = getItem k w).
  assert (Hset : forall key v, key <> k -> preserves I (setItem key v)).
  { intros key v Hkey w0 H. unfold I, getItem in *. cbn.
    rewrite lookup_insert_ne by exact Hkey. exact H. }
  assert (Hfetch : forall req signal, preserves I (fetch server req signal)).
  { intros req signal w0 H. unfold fetch.
    destruct (server (log w0) req);
      destruct (timers w0 !! signal); try destruct (_ <? _)%N; exact H. }
  assert (Hlogout : preserves I logout).
  { intros w0 H. unfold I, getItem, logout, removeItem in *. cbn.
    rewrite !lookup_delete_ne by congruence. exact H. }
  repeat split; intros;
    [ apply (preserves_request server this I)
    | apply (preserves_refreshToken server this I)
    | apply (preserves_login server this I) ];
    auto; try reflexivity; intros; intros w0 H; exact H.
Qed.

(** X5.  [request] never rewrites the refresh token, it can only remove
    it; and it never navigates anywhere but to the login page. *)
Theorem request_session_effects fuel endpoint options w :
  let w' := snd (request server this fuel endpoint options w) in
  (getItem "refresh_token" w' = getItem "refresh_token" w
   \/ getItem "refresh_token" w' = None)
  /\ (location w' = location w \/ location w' = "/pages/login.html").
Proof.
  set (I := fun w' : World =>
    (getItem "refresh_token" w' = getItem "refresh_token" w
     \/ getItem "refresh_token" w' = None)
    /\ (location w' = location w \/ location w' = "/pages/login.html")).
  apply (preserves_request server this I); unfold I.
  - intros delay w0 H. exact H.
  - intros id w0 H. exact H.
  - intros ep opts w1 signal w0 H. unfold fetch.
    destruct (server (log w0) _);
      destruct (timers w0 !! signal); try destruct (_ <? _)%N; exact H.
  - intros e w0 H. exact H.
  - intros v w0 [H1 H2]. split; [ | exact H2 ]. unfold getItem in *. cbn.
    rewrite lookup_insert_ne by discriminate. exact H1.
  - intros w0 [H1 H2]. split; [ right | right; reflexivity ].
    unfold getItem. cbn. apply lookup_delete_eq.
  - split; left; reflexivity.
Qed.

Lemma prefix_app (s t : string) : String.prefix s (s ++ t) = true.
Proof.
  induction s as [ | c s IH ]; simpl; [ by destruct t | ].
  destruct (ascii_dec c c); [ exact IH | congruence ].
Qed.

(** X6.  Every request that [request] puts on the wire goes to a URL
    under the client's base URL. *)
Theorem request_same_origin fuel endpoint options w :
  same_origin (baseUrl this) w ->
  same_origin (baseUrl this) (snd (request server this fuel endpoint options w)).
Proof.
  apply (preserves_request server this (same_origin (baseUrl this))).
  - intros delay w0 H. exact H.
  - intros id w0 H. exact H.
  - intros ep opts w1 signal w0 H. unfold same_origin. rewrite fetch_log.
    constructor; [ apply prefix_app | exact H ].
  - intros e w0 H. exact H.
  - intros v w0 H. exact H.
  - intros w0 H. exact H.
Qed.

End Never.

(** ** Sessions *)

Section Sessions.

Variable server : Server.

(** X1.  Without a timely 401 answer, or with [retry] set to false,
    [request] issues exactly one fetch, leaves storage and location
    alone, and needs no nested call.  It settles, except when the headers
    of the response came in time and its body never does: then it waits
    for the body for ever. *)
Theorem request_without_refresh fuel endpoint options w :
  timely_401 30000 (server (log w) (build_config api endpoint options w))
    && not_false (retry options) = false ->
  let reply := server (log w) (build_config api endpoint options w) in
  let result := request server api (S fuel) endpoint options w in
  result = request server api 1 endpoint options w
  /\ (if endless_body 30000 reply then fst result = Hangs else settled (fst result) = true)
  /\ log (snd result) = (build_config api endpoint options w, reply) :: log w
  /\ storage (snd result) = storage w
  /\ location (snd result) = location w.
Proof.
  intros H reply result. split.
  - apply request_one_exchange_fuel, H.
  - apply request_one_exchange, H.
Qed.



(** X8.  A login whose response carries an access token but no [refresh]
    member stores the text "undefined" as the refresh token. *)
Theorem login_without_refresh_member fuel username password w latency r data token :
  server (log w)
    (build_config api API_CONFIG.ENDPOINTS.LOGIN
       (post_options (JObj [("username", username); ("password", password)])) w)
    = Resolves latency r ->
  (latency < 30000)%N ->
  ok r = true ->
  parsed r = Some data ->
  member "access" data = JStr token ->
  token <> EmptyString ->
  member "refresh" data = JUndefined ->
  exists w',
    login server api (S fuel) username password w
      = (Resolved (JObj [("success", JBool true); ("data", data)]), w')
    /\ getItem "access_token" w' = Some token
    /\ getItem "refresh_token" w' = Some "undefined".
Proof.
  intros H Hlat Hok Hbody Haccess Hne Hrefresh.
  unfold login, post, post_with. unfold try_catch at 1. unfold bind at 1.
  cbn [or_empty_object].
  unfold post_options in H. enter_request. rewrite H. in_time Hlat. cbn -[read_json].
  rewrite (ok_not_401 _ Hok). body_read. rewrite Hok. cbn.
  unfold json_or_empty. rewrite Hbody. cbn.
  destruct data as [ | | b | n | s | xs | fields ]; try discriminate.
  cbn in Haccess, Hrefresh. cbn. rewrite Haccess. cbn.
  apply String.eqb_neq in Hne. rewrite Hne. cbn. rewrite Hrefresh. cbn.
  eexists; split; [ reflexivity | ]. unfold getItem. cbn. split.
  - rewrite lookup_insert_ne by discriminate. apply lookup_insert_eq.
  - apply lookup_insert_eq.
Qed.

(** X9.  A login answered in time with a success status but no truthy
    [access] resolves with [success: false] and the message
    "No se recibió token", and stores nothing. *)
Theorem login_without_access_token fuel username password w latency r :
  server (log w)
    (build_config api API_CONFIG.ENDPOINTS.LOGIN
       (post_options (JObj [("username", username); ("password", password)])) w)
    = Resolves latency r ->
  (latency < 30000)%N ->
  ok r = true ->
  nullish (json_or_empty r) = false ->
  truthy (member "access" (json_or_empty r)) = false ->
  exists w',
    login server api (S fuel) username password w
      = (Resolved (JObj [("success", JBool false); ("error", JStr "No se recibió token")]), w')
    /\ storage w' = storage w.
Proof.
  intros H Hlat Hok Hnull Haccess.
  unfold login, post, post_with. unfold try_catch at 1. unfold bind at 1.
  cbn [or_empty_object].
  unfold post_options in H. enter_request. rewrite H. in_time Hlat. cbn -[read_json].
  rewrite (ok_not_401 _ Hok). body_read. rewrite Hok. cbn.
  destruct (json_or_empty r) as [ | | b | n | s | xs | fields ]; try discriminate;
    cbn in Haccess |- *; rewrite ?Haccess; cbn;
    eexists; split; reflexivity.
Qed.

End Sessions.

(** * Properties of the registration form *)

(** X10.  [validateRegisterForm] accepts exactly the forms with no empty
    field, an email the email check accepts, a user name of at least 3 and
    a password of at least 8 code units, a matching confirmation and the
    terms accepted. *)
Theorem validateRegisterForm_accepts isValidEmail data confirmPassword termsAccepted shown :
  fst (validateRegisterForm isValidEmail data confirmPassword termsAccepted shown) = true
  <-> (username data <> EmptyString /\ email data <> EmptyString
       /\ password data <> EmptyString /\ first_name data <> EmptyString
       /\ last_name data <> EmptyString)
      /\ isValidEmail (email data) = true
      /\ (3 <= js_length (username data))%nat
      /\ (8 <= js_length (password data))%nat
      /\ password data = confirmPassword
      /\ termsAccepted = true.
Proof.
  unfold validateRegisterForm, blank.
  destruct (String.eqb_spec (username data) EmptyString) as [Hu | Hu];
    [ cbn; split; [ discriminate | intros ((H & _) & _); contradiction ] | ].
  destruct (String.eqb_spec (email data) EmptyString) as [He | He];
    [ cbn; split; [ discriminate | intros ((_ & H & _) & _); contradiction ] | ].
  destruct (String.eqb_spec (password data) EmptyString) as [Hp | Hp];
    [ cbn; split; [ discriminate | intros ((_ & _ & H & _) & _); contradiction ] | ].
  destruct (String.eqb_spec (first_name data) EmptyString) as [Hf | Hf];
    [ cbn; split; [ discriminate | intros ((_ & _ & _ & H & _) & _); contradiction ] | ].
  destruct (String.eqb_spec (last_name data) EmptyString) as [Hl | Hl];
    [ cbn; split; [ discriminate | intros ((_ & _ & _ & _ & H) & _); contradiction ] | ].
  cbn [orb].
  destruct (isValidEmail (email data));
    [ | cbn; split; [ discriminate | intros (_ & H & _); discriminate ] ].
  cbn [negb].
  destruct (Nat.ltb_spec (js_length (username data)) 3);
    [ cbn; split; [ discriminate | intros (_ & _ & H' & _); lia ] | ].
  destruct (Nat.ltb_spec (js_length (password data)) 8);
    [ cbn; split; [ discriminate | intros (_ & _ & _ & H' & _); lia ] | ].
  destruct (String.eqb_spec (password data) confirmPassword) as [Hc | Hc];
    [ | cbn; split; [ discriminate | intros (_ & _ & _ & _ & H' & _); contradiction ] ].
  cbn [negb].
  destruct termsAccepted; cbn; split; try discriminate; auto 10.
  intros (_ & _ & _ & _ & _ & H'); try discriminate.
Qed.

(** X11.  [validateRegisterForm] shows nothing when it accepts and exactly
    one notification, of type error, when it refuses; what was shown
    before stays. *)
Theorem validateRegisterForm_notifies isValidEmail data confirmPassword termsAccepted shown :
  let '(accepted, shown') :=
    validateRegisterForm isValidEmail data confirmPassword termsAccepted shown in
  if accepted then shown' = shown
  else exists text, shown' = (shown ++ [mkNotice text "error"])%list.
Proof.
  unfold validateRegisterForm.
  repeat match goal with
         | |- context [if ?c then _ else _] => destruct c
         end; eauto.
Qed.

Lemma js_length_app s t : js_length (s ++ t) = (js_length s + js_length t)%nat.
Proof. induction s as [ | c s IH ]; simpl; [ reflexivity | rewrite IH; lia ]. Qed.

Lemma test_app class s t : test class (s ++ t) = test class s || test class t.
Proof.
  unfold test. induction s as [ | c s IH ]; simpl; [ reflexivity | ].
  rewrite IH. apply orb_assoc.
Qed.

Lemma bump_le (c1 c2 : bool) (x y : nat) :
  (c1 = true -> c2 = true) -> (x <= y)%nat ->
  ((if c1 then S x else x) <= (if c2 then S y else y))%nat.
Proof. intros Hc Hxy. destruct c1, c2; try lia; discriminate (Hc eq_refl). Qed.

(** X12.  Typing more never lowers the strength counter. *)
Theorem password_strength_monotone password more :
  (password_strength password <= password_strength (password ++ more))%nat.
Proof.
  unfold password_strength. rewrite js_length_app, !test_app.
  repeat apply bump_le; try lia.
  - intros H. apply orb_true_intro. left. exact H.
  - intros H. apply orb_true_intro. left. exact H.
  - intros H. apply andb_prop in H as [H1 H2]. rewrite H1, H2. reflexivity.
  - intros H. apply Nat.leb_le in H. apply Nat.leb_le. lia.
  - intros H. apply Nat.leb_le in H. apply Nat.leb_le. lia.
Qed.

(** X13.  The indicator is rated strong exactly for passwords of at least
    12 code units with a lower-case letter, an upper-case letter, a digit
    and a character that is neither. *)
Theorem updatePasswordStrength_strong password indicator :
  updatePasswordStrength password (Some indicator) = Some "password-strength strong"
  <-> (12 <= js_length password)%nat
      /\ test lower_case password = true
      /\ test upper_case password = true
      /\ test digit password = true
      /\ test symbol password = true.
Proof.
  unfold updatePasswordStrength, password_strength.
  destruct (Nat.leb_spec 8 (js_length password));
    destruct (Nat.leb_spec 12 (js_length password)); try lia;
    destruct (test lower_case password), (test upper_case password),
      (test digit password), (test symbol password); cbn;
    split; try discriminate; try (intros (? & ? & ? & ? & ?)); try discriminate; try lia; auto.
Qed.

(** * Properties of the pagination *)

Lemma page_buttons_loop st (pages : list Z) :
  page_buttons (flat_map (page_controls st) pages) = List.filter (has_button st) pages.
Proof.
  induction pages as [ | i pages IH ]; [ reflexivity | ].
  cbn [flat_map List.filter]. unfold page_buttons in *. rewrite omap_app, IH.
  unfold page_controls, has_button.
  destruct ((i =? 1) || (i =? totalPages st)
            || ((currentPage st - 1 <=? i) && (i <=? currentPage st + 1)));
    [ reflexivity | ].
  destruct ((i =? currentPage st - 2) || (i =? currentPage st + 2)); reflexivity.
Qed.

Lemma ellipses_loop st (pages : list Z) :
  ellipses (flat_map (page_controls st) pages) = length (List.filter (has_dots st) pages).
Proof.
  induction pages as [ | i pages IH ]; [ reflexivity | ].
  cbn [flat_map List.filter]. unfold ellipses in *. rewrite List.filter_app, length_app, IH.
  unfold page_controls, has_dots, has_button.
  destruct ((i =? 1) || (i =? totalPages st)
            || ((currentPage st - 1 <=? i) && (i <=? currentPage st + 1)));
    [ reflexivity | ].
  destruct ((i =? currentPage st - 2) || (i =? currentPage st + 2)); reflexivity.
Qed.

(** A filter over distinct numbers that only lets members of [among]
    through lets at most [length among] through. *)
Lemma filter_bound (keep : Z -> bool) (pages among : list Z) :
  NoDup pages ->
  (forall i, keep i = true -> i ∈ among) ->
  (length (List.filter keep pages) <= length among)%nat.
Proof.
  intros Hnodup Hamong. apply submseteq_length, NoDup_submseteq.
  - induction Hnodup as [ | i pages Hi Hnodup IH ]; cbn; [ constructor | ].
    destruct (keep i); [ | exact IH ].
    constructor; [ | exact IH ].
    intros Hin. apply Hi. apply list_elem_of_In, filter_In in Hin as [Hin _].
    apply list_elem_of_In, Hin.
  - intros i Hi. apply list_elem_of_In, filter_In in Hi as [_ Hi]. apply Hamong, Hi.
Qed.

(** X14.  However many pages there are, the pagination shows at most five
    page buttons and at most two ellipses. *)
Theorem renderPagination_size st :
  (length (page_buttons (renderPagination st)) <= 5)%nat
  /\ (ellipses (renderPagination st) <= 2)%nat.
Proof.
  unfold renderPagination. destruct (totalPages st <=? 1); [ cbn; lia | ].
  split.
  - unfold page_buttons. rewrite !omap_app. cbn [omap app]. rewrite app_nil_r.
    fold (page_buttons (flat_map (page_controls st) (seqZ 1 (totalPages st)))).
    rewrite page_buttons_loop.
    apply (filter_bound _ _ [1; totalPages st; currentPage st - 1; currentPage st;
                             currentPage st + 1]); [ apply NoDup_seqZ | ].
    intros i Hi. unfold has_button in Hi. rewrite !elem_of_cons.
    destruct (Z.eqb_spec i 1); [ auto | ].
    destruct (Z.eqb_spec i (totalPages st)); [ auto | ].
    cbn in Hi. apply andb_prop in Hi as [H1 H2].
    assert (i = currentPage st - 1 \/ i = currentPage st \/ i = currentPage st + 1)
      as [ | [ | ]] by lia; auto 6.
  - unfold ellipses. rewrite !List.filter_app, !length_app. cbn [List.filter length].
    fold (ellipses (flat_map (page_controls st) (seqZ 1 (totalPages st)))).
    rewrite ellipses_loop, Nat.add_0_r. cbn [Nat.add].
    apply (filter_bound _ _ [currentPage st - 2; currentPage st + 2]); [ apply NoDup_seqZ | ].
    intros i Hi. unfold has_dots in Hi. apply andb_prop in Hi as [_ Hi].
    rewrite !elem_of_cons.
    destruct (Z.eqb_spec i (currentPage st - 2)); [ auto | ].
    destruct (Z.eqb_spec i (currentPage st + 2)); [ auto | discriminate ].
Qed.

Lemma In_renderPagination st c :
  In c (renderPagination st) ->
  c = PrevButton (currentPage st - 1) (currentPage st =? 1)
  \/ c = NextButton (currentPage st + 1) (currentPage st =? totalPages st)
  \/ exists i, 1 <= i <= totalPages st /\ In c (page_controls st i).
Proof.
  unfold renderPagination. destruct (totalPages st <=? 1); [ intros [] | ].
  cbn [app]. intros [<- | H]; [ auto | ].
  apply in_app_or in H as [H | [<- | []]]; [ | auto ].
  apply in_flat_map in H as (i & Hi & H). right. right. exists i. split; [ | exact H ].
  apply list_elem_of_In, elem_of_seqZ in Hi. lia.
Qed.

Lemma In_page_controls st i :
  1 < totalPages st ->
  1 <= i <= totalPages st ->
  has_button st i = true ->
  In (PageButton i (i =? currentPage st)) (renderPagination st).
Proof.
  intros Hmany Hi Hb. unfold renderPagination.
  destruct (Z.leb_spec (totalPages st) 1).
  - lia.
  - cbn [app]. right. apply in_or_app. left. apply in_flat_map. exists i. split.
    + apply list_elem_of_In, elem_of_seqZ. lia.
    + unfold page_controls. unfold has_button in Hb. rewrite Hb. left. reflexivity.
Qed.

(** X15.  With more than one page and the current page in range, the
    pagination has a button for the first page, for the last page and for
    the current page, and the current page's button is the only active
    one. *)
Theorem renderPagination_current st :
  1 < totalPages st ->
  1 <= currentPage st <= totalPages st ->
  In (PageButton (currentPage st) true) (renderPagination st)
  /\ In 1 (page_buttons (renderPagination st))
  /\ In (totalPages st) (page_buttons (renderPagination st))
  /\ forall page, In (PageButton page true) (renderPagination st) -> page = currentPage st.
Proof.
  intros Hmany Hcur.
  assert (Hbutton : forall i, 1 <= i <= totalPages st -> has_button st i = true ->
                              In i (page_buttons (renderPagination st))).
  { intros i Hi Hb. apply list_elem_of_In. unfold page_buttons.
    apply list_elem_of_omap. exists (PageButton i (i =? currentPage st)).
    split; [ apply list_elem_of_In, In_page_controls; assumption | reflexivity ]. }
  repeat split.
  - pose proof (In_page_controls st (currentPage st) Hmany Hcur) as H.
    rewrite Z.eqb_refl in H. apply H.
    unfold has_button. apply orb_true_intro. right. apply andb_true_intro. split; lia.
  - apply Hbutton; [ lia | reflexivity ].
  - apply Hbutton; [ lia | ]. unfold has_button. rewrite Z.eqb_refl, orb_true_r. reflexivity.
  - intros page H. apply In_renderPagination in H as [H | [H | (i & Hi & H)]];
      try discriminate.
    unfold page_controls in H.
    destruct ((i =? 1) || (i =? totalPages st)
              || ((currentPage st - 1 <=? i) && (i <=? currentPage st + 1))).
    + destruct H as [H | []]. injection H as <- H. apply Z.eqb_eq, H.
    + destruct ((i =? currentPage st - 2) || (i =? currentPage st + 2));
        [ destruct H as [H | []]; discriminate | destruct H ].
Qed.

(** X16.  With the current page in range, every control of the pagination
    that can be clicked asks [changePage] for a page it accepts:
    [changePage] moves to exactly that page, reloads the events and scrolls
    to the top, and the current page stays in range. *)
Theorem renderPagination_clicks st c target :
  1 <= currentPage st <= totalPages st ->
  In c (renderPagination st) ->
  click_target c = Some target ->
  changePage target st
    = (mkState (events st) (categories st) target (totalPages st) (filters st)
               (selectedEvent st),
       [LoadEvents; ScrollToTop])
  /\ 1 <= currentPage (fst (changePage target st)) <= totalPages (fst (changePage target st)).
Proof.
  intros Hcur Hin Hclick.
  assert (Htarget : 1 <= target <= totalPages st).
  { apply In_renderPagination in Hin as [-> | [-> | (i & Hi & Hin)]]; cbn in Hclick.
    - destruct (Z.eqb_spec (currentPage st) 1); [ discriminate | ].
      injection Hclick as <-. lia.
    - destruct (Z.eqb_spec (currentPage st) (totalPages st)); [ discriminate | ].
      injection Hclick as <-. lia.
    - unfold page_controls in Hin.
      destruct ((i =? 1) || (i =? totalPages st)
                || ((currentPage st - 1 <=? i) && (i <=? currentPage st + 1))).
      + destruct Hin as [<- | []]. injection Hclick as <-. exact Hi.
      + destruct ((i =? currentPage st - 2) || (i =? currentPage st + 2));
          [ destruct Hin as [<- | []]; discriminate | destruct Hin ]. }
  unfold changePage.
  destruct (Z.ltb_spec target 1); [ lia | ].
  destruct (Z.gtb_spec target (totalPages st)); [ lia | ].
  cbn. auto.
Qed.

(** X17.  Whatever the state, [changePage] never changes [totalPages],
    and it ignores a page outside [1 .. totalPages]: the state is
    unchanged and nothing is reloaded.  A page within the range becomes
    the current page, and the events are reloaded.  So whatever page is
    asked for, a current page in range stays in range. *)
Theorem changePage_in_range page st :
  let '(st', effects) := changePage page st in
  totalPages st' = totalPages st
  /\ (page < 1 \/ totalPages st < page -> st' = st /\ effects = [])
  /\ (1 <= page <= totalPages st ->
      currentPage st' = page /\ effects = [LoadEvents; ScrollToTop])
  /\ (1 <= currentPage st <= totalPages st -> 1 <= currentPage st' <= totalPages st').
Proof.
  unfold changePage.
  destruct (Z.ltb_spec page 1); [ cbn; repeat split; auto; lia | ].
  destruct (Z.gtb_spec page (totalPages st)); cbn; repeat split; auto; lia.
Qed.

(** * Properties of the catalogue page *)

(** X18.  [checkBackendConnection] never rejects.  When the health check
    settles it shows exactly one notification: the success notification
    only if the latest exchange is a timely success-status response whose
    body has [status] equal to "healthy", and otherwise the ten-second
    error notification naming the base URL.  When the health check does
    not settle, nothing is shown. *)
Theorem checkBackendConnection_reports server fuel s :
  match checkBackendConnection server fuel s with
  | (Resolved _, s') =>
      exists toast,
        notifications s' = (notifications s ++ [toast])%list
        /\ ((toast = mkToast "Conexión establecida con el servidor" "success" 5000
             /\ exists config latency r rest,
                  log (browser s') = (config, Resolves latency r) :: rest
                  /\ (latency < 30000)%N
                  /\ ok r = true
                  /\ member "status" (json_or_empty r) = JStr "healthy")
            \/ toast
               = mkToast
                   ("No se puede conectar con el servidor. Verifica que el backend esté corriendo en "
                    ++ API_CONFIG.BASE_URL)
                   "error" 10000)
  | (Rejected _, _) => False
  | (_, s') => notifications s' = notifications s
  end.
Proof.
  unfold checkBackendConnection, ui_try_catch, ui_bind, lift, healthCheck, try_catch, get.
  change (URLSearchParams []) with EmptyString. cbn [String.eqb negb].
  destruct (request server api fuel API_CONFIG.ENDPOINTS.HEALTH
              (mkOptions (Some "GET") None ∅ None None) (browser s))
    as [[health | e | | ] w1] eqn:E; cbn; try reflexivity.
  - apply request_resolved in E
      as (config & latency & r & rest & Hlog & _ & _ & Hlat & Hok & Hv).
    destruct health as [ | | b | n | text | xs | fields ]; cbn;
      try (eexists; split; [ reflexivity | right; reflexivity ]).
    destruct (default JUndefined (field_of "status" fields)) as [ | | b | n | text | xs | fs ]
      eqn:Hstatus; cbn;
      try (eexists; split; [ reflexivity | right; reflexivity ]).
    destruct (String.eqb_spec text "healthy") as [-> | Hne]; cbn;
      [ | eexists; split; [ reflexivity | right; reflexivity ] ].
    eexists; split; [ reflexivity | left ]. split; [ reflexivity | ].
    exists config, latency, r, rest. rewrite <- Hv. cbn. auto.
  - eexists; split; [ reflexivity | right; reflexivity ].
Qed.

(** * Concrete runs of the further properties *)

Example pagination_of_page_5_of_10 :
  renderPagination (catalogue 5 10)
  = [ PrevButton 4 false; PageButton 1 false; Dots; PageButton 4 false;
      PageButton 5 true; PageButton 6 false; Dots; PageButton 10 false;
      NextButton 6 false ].
Proof. reflexivity. Qed.

Example pagination_of_a_single_page : renderPagination (catalogue 1 1) = [].
Proof. reflexivity. Qed.

Example strength_of_a_short_mixed_password :
  password_strength "aA1!" = 3%nat
  /\ updatePasswordStrength "aA1!" (Some "password-strength") = Some "password-strength medium".
Proof. split; reflexivity. Qed.

Example length_counts_code_units : js_length "contraseña" = 10%nat.
Proof. reflexivity. Qed.

Example healthy_back_end_is_reported :
  let '(outcome, s) := checkBackendConnection healthy 1 blank_screen in
  outcome = Resolved tt
  /\ notifications s = [ mkToast "Conexión establecida con el servidor" "success" 5000 ].
Proof. vm_compute. auto. Qed.

Lemma request_without_refresh_witness :
  let result := request not_found api 3 "/events/events/99/" no_options (fresh_world session) in
  result = request not_found api 1 "/events/events/99/" no_options (fresh_world session)
  /\ settled (fst result) = true
  /\ length (log (snd result)) = 1%nat
  /\ storage (snd result) = session.
Proof.
  destruct (request_without_refresh not_found 2 "/events/events/99/" no_options
              (fresh_world session) eq_refl) as (Hfuel & Hsettled & Hlog & Hstorage & _).
  cbv zeta.
  split; [ exact Hfuel | split; [ exact Hsettled | split; [ | exact Hstorage ] ] ].
  rewrite Hlog. reflexivity.
Defined.

Lemma request_bounded_retry_witness :
  let result := request expired_once api 7 API_CONFIG.ENDPOINTS.EVENTS no_options
                  (fresh_world session) in
  result = request expired_once api 2 API_CONFIG.ENDPOINTS.EVENTS no_options (fresh_world session)
  /\ settled (fst result) = true
  /\ (length (log (snd result)) <= 3)%nat.
Proof.
  assert (Hrefresh : forall history req,
             url req = (baseUrl api ++ API_CONFIG.ENDPOINTS.REFRESH)%string ->
             timely_401 30000 (expired_once history req) = false).
  { intros history req Hurl. unfold expired_once, is_refresh. rewrite Hurl. reflexivity. }
  destruct (request_bounded_retry expired_once Hrefresh 5 API_CONFIG.ENDPOINTS.EVENTS
              no_options (fresh_world session)) as (Hdepth & _ & Hlength).
  cbv zeta. split; [ exact Hdepth | split; [ reflexivity | exact Hlength ] ].
Defined.


Lemma client_storage_frame_witness :
  getItem "user"
    (snd (request stale_access api 5 API_CONFIG.ENDPOINTS.EVENTS no_options (fresh_world session)))
  = Some "{}".
Proof.
  destruct (client_storage_frame stale_access api 5 "user") with (w := fresh_world session)
    as (Hrequest & _); [ discriminate | discriminate | ].
  rewrite Hrequest. reflexivity.
Defined.

Lemma request_same_origin_witness :
  same_origin "http://localhost:8000/api"
    (snd (request expired_once api 5 API_CONFIG.ENDPOINTS.EVENTS no_options (fresh_world session))).
Proof.
  apply (request_same_origin expired_once api 5 API_CONFIG.ENDPOINTS.EVENTS no_options
           (fresh_world session)).
  constructor.
Defined.


Lemma login_without_refresh_member_witness :
  exists w',
    login access_only api 1 alice secret (fresh_world ∅)
      = (Resolved (JObj [("success", JBool true); ("data", JObj [("access", JStr "A1")])]), w')
    /\ getItem "access_token" w' = Some "A1"
    /\ getItem "refresh_token" w' = Some "undefined".
Proof.
  apply (login_without_refresh_member access_only 0 alice secret (fresh_world ∅) 20
           (mkResponse 200 (Some (JObj [("access", JStr "A1")])))
           (JObj [("access", JStr "A1")]) "A1");
    [ reflexivity | lia | reflexivity | reflexivity | reflexivity | discriminate | reflexivity ].
Defined.

Lemma login_without_access_token_witness :
  exists w',
    login garbled api 1 alice secret (fresh_world session)
      = (Resolved (JObj [("success", JBool false); ("error", JStr "No se recibió token")]), w')
    /\ storage w' = session.
Proof.
  apply (login_without_access_token garbled 0 alice secret (fresh_world session) 20
           (mkResponse 200 None));
    [ reflexivity | lia | reflexivity | reflexivity | reflexivity ].
Defined.

Lemma renderPagination_current_witness :
  In (PageButton 5 true) (renderPagination (catalogue 5 10))
  /\ In 1 (page_buttons (renderPagination (catalogue 5 10)))
  /\ In 10 (page_buttons (renderPagination (catalogue 5 10)))
  /\ forall page, In (PageButton page true) (renderPagination (catalogue 5 10)) -> page = 5.
Proof.
  apply (renderPagination_current (catalogue 5 10)); cbn; lia.
Defined.

Lemma renderPagination_clicks_witness :
  changePage 6 (catalogue 5 10) = (catalogue 6 10, [LoadEvents; ScrollToTop])
  /\ 1 <= currentPage (fst (changePage 6 (catalogue 5 10)))
       <= totalPages (fst (changePage 6 (catalogue 5 10))).
Proof.
  apply (renderPagination_clicks (catalogue 5 10) (NextButton 6 false) 6);
    [ cbn; lia | vm_compute; do 8 right; left; reflexivity | reflexivity ].
Defined.

Lemma changePage_in_range_witness :
  changePage 11 (catalogue 5 10) = (catalogue 5 10, [])
  /\ changePage 6 (catalogue 5 10) = (catalogue 6 10, [LoadEvents; ScrollToTop]).
Proof.
  pose proof (changePage_in_range 11 (catalogue 5 10)) as Hout.
  split.
  - destruct (changePage 11 (catalogue 5 10)) as [st' effects].
    destruct Hout as (_ & Hout & _).
    destruct Hout as [-> ->]; [ right; cbn; lia | reflexivity ].
  - reflexivity.
Defined.
